(** * Delayed summed variable: a shallow embedding of [delayedSummedVariable.py]

    The script builds a Brian2 network of an input group [G] (variable [v],
    a shared integer [buffer_pointer] and a 2-D history array [v_buffer]),
    an output group [H] (variable [I]) and all-to-all synapses [S] whose
    summed variable [I_post = v_delayed*w] feeds [H.I].  Two [run_regularly]
    operations maintain the history: one advances the pointer and stores the
    current [v] in the row it designates, the other fetches, per synapse, the
    entry [delay_step] rows behind the pointer.

    What is modelled and how:
    - floating-point scalars are kept abstract (class [Scalar]): the results
      hold for every interpretation of [0.0], [+], [*], [>] and the two
      literals of the model equations; an exact rational instance is used to
      run the network on concrete inputs;
    - integers ([buffer_pointer], [delay_step], [buffer_size]) are [Z], the
      operator [%] with a positive modulus is [Z.modulo];
    - arrays are lists, indexed as numpy does: an index outside
      [-len, len) raises [IndexError];
    - the objects of the network carry the scheduling attributes Brian2 gives
      them ([when], [order], name) and one time step runs them in the order
      Brian2's network derives from these attributes. *)

From Stdlib Require Import ZArith QArith String Lia.
From stdpp Require Import base tactics option numbers list.

Local Open Scope Z_scope.

(** ** Errors raised by the Python code *)

Inductive exn := ValueError | IndexError.

Inductive result (A : Type) :=
| Ok (a : A)
| Raise (e : exn).
Arguments Ok {A} a.
Arguments Raise {A} e.

#[global] Instance result_ret : MRet result := λ A a, Ok a.
#[global] Instance result_bind : MBind result := λ A B f m,
  match m with Ok a => f a | Raise e => Raise e end.

Definition is_Ok {A} (m : result A) : Prop := ∃ a, m = Ok a.

(** ** Scalars

    [vzero] is [0.0]; [rate_dt] is the Euler increment [dt * (0.4/ms)] of
    [dv/dt = 0.4/ms] with [defaultclock.dt = 1*ms]; [v_th] is the literal
    [4.0] of the threshold [v > 4.0]. *)

Class Scalar (V : Type) := {
  vzero : V;
  vadd : V → V → V;
  vmul : V → V → V;
  vgtb : V → V → bool;
  rate_dt : V;
  v_th : V;
}.

(** ** numpy indexing and Python's [max] *)

(** [a[k]] on an axis of length [len]: negative indices count from the end. *)
Definition np_index (len : nat) (k : Z) : result nat :=
  if bool_decide (0 ≤ k < Z.of_nat len) then Ok (Z.to_nat k)
  else if bool_decide (- Z.of_nat len ≤ k < 0) then Ok (Z.to_nat (k + Z.of_nat len))
  else Raise IndexError.

(** [max(l)]: [ValueError] on an empty sequence. *)
Definition py_max (l : list Z) : result Z :=
  match l with
  | [] => Raise ValueError
  | x :: l' => Ok (fold_left Z.max l' x)
  end.

(** [randint(low, high)] is numpy's (the script does [from brian2 import *]):
    an integer of the half-open interval [low, high).  [r] is the raw
    entropy consumed by the draw. *)
Definition randint (low high : Z) (r : Z) : Z := low + r mod (high - low).

Definition delay_max : Z := 10.

(** [delays = [randint(1,delay_max) for i in range(nb_neurons**2)]] *)
Definition draw_delays (nb_neurons : nat) (rnd : nat → Z) : list Z :=
  (λ k, randint 1 delay_max (rnd k)) <$> seq 0 (nb_neurons ^ 2).

(** ** Scheduling attributes of the network's objects *)

(** Brian2's default schedule. *)
Inductive slot := start | groups | thresholds | synapses_slot | resets | end_slot.

Definition slot_rank (s : slot) : Z :=
  match s with
  | start => 0 | groups => 1 | thresholds => 2
  | synapses_slot => 3 | resets => 4 | end_slot => 5
  end.

(** The code each object runs. *)
Inductive code :=
| buffer_updater          (* G.run_regularly(update_code) *)
| get_new_v_delayed       (* S.run_regularly(update_code_syn) *)
| summed_variable_I_post  (* I_post = v_delayed*w : 1 (summed) *)
| G_stateupdater          (* dv/dt = 0.4/ms, method='euler' *)
| H_stateupdater          (* I : 1, nothing to integrate *)
| G_thresholder           (* threshold='v > 4.0' *)
| G_resetter.             (* reset='v = 0.0' *)

#[global] Instance code_eq_dec : EqDecision code.
Proof. solve_decision. Defined.

Record brian_object := BrianObject {
  obj_name : string;
  obj_when : slot;
  obj_order : Z;
  obj_code : code;
}.

(** The code runners of the script, in creation order.  [run_regularly]
    defaults to [when='start', order=0]; state updaters run in ['groups'],
    the thresholder in ['thresholds'], the resetter in ['resets'], all with
    the order of their group (0); the updater of a summed variable runs in
    ['groups'] with the order of the target group minus one.  [G] is named
    [neurongroup], [H] [neurongroup_1] and [S] [synapses]. *)
Definition network_objects : list brian_object :=
  [ BrianObject "neurongroup_stateupdater" groups 0 G_stateupdater;
    BrianObject "neurongroup_spike_thresholder" thresholds 0 G_thresholder;
    BrianObject "neurongroup_spike_resetter" resets 0 G_resetter;
    BrianObject "neurongroup_run_regularly" start 0 buffer_updater;
    BrianObject "neurongroup_1_stateupdater" groups 0 H_stateupdater;
    BrianObject "synapses_summed_variable_I_post" groups (-1) summed_variable_I_post;
    BrianObject "synapses_run_regularly" start 0 get_new_v_delayed ].

(** The network sorts its objects by [(when, order, name)]. *)
Definition obj_leb (a b : brian_object) : bool :=
  match slot_rank (obj_when a) ?= slot_rank (obj_when b) with
  | Lt => true
  | Gt => false
  | Eq =>
    match obj_order a ?= obj_order b with
    | Lt => true
    | Gt => false
    | Eq => String.leb (obj_name a) (obj_name b)
    end
  end.

Fixpoint insert_sorted (a : brian_object) (l : list brian_object) : list brian_object :=
  match l with
  | [] => [a]
  | b :: l' => if obj_leb a b then a :: l else b :: insert_sorted a l'
  end.

Definition sort_objects (l : list brian_object) : list brian_object :=
  foldr insert_sorted [] l.

Definition schedule : list code := obj_code <$> sort_objects network_objects.

(** The phases of the specification's step engine. *)
Inductive phase := IntrinsicUpdate | BufferWrite | DelayedAggregate | ThresholdReset.

#[global] Instance phase_eq_dec : EqDecision phase.
Proof. solve_decision. Defined.

Definition phase_of (c : code) : option phase :=
  match c with
  | buffer_updater => Some BufferWrite
  | get_new_v_delayed | summed_variable_I_post => Some DelayedAggregate
  | G_stateupdater => Some IntrinsicUpdate
  | H_stateupdater => None
  | G_thresholder | G_resetter => Some ThresholdReset
  end.

(** Consecutive objects of one phase form one phase of the tick. *)
Fixpoint squash (l : list phase) : list phase :=
  match l with
  | [] => []
  | a :: l' =>
    match squash l' with
    | b :: r => if decide (a = b) then b :: r else a :: b :: r
    | [] => [a]
    end
  end.

Definition tick_phases : list phase := squash (omap phase_of schedule).

(** Position of the first occurrence of [c] in the schedule. *)
Fixpoint position (c : code) (l : list code) : option nat :=
  match l with
  | [] => None
  | c' :: l' => if decide (c = c') then Some 0%nat else S <$> position c l'
  end.

Definition occurrences (c : code) (l : list code) : nat :=
  length (filter (λ c', c' = c) l).

(** ** The network and its state *)

Section Model.
Context {V : Type} `{Scalar V}.

(** One synapse of [S]: source index [i], target index [j], the
    parameters [w] and [delay_step]. *)
Record synapse := Synapse {
  syn_i : nat;
  syn_j : nat;
  w : V;
  delay_step : Z;
}.

(** What the construction fixes: [len(G)] (also [len(H)]), [buffer_size]
    and the synapses in index order. *)
Record network := Network {
  N : nat;
  buffer_size : Z;
  synapses : list synapse;
}.

(** What one time step reads and writes. *)
Record state := State {
  v : list V;                 (* G.v *)
  buffer_pointer : Z;         (* G.buffer_pointer, shared *)
  v_buffer : list (list V);   (* G.v_buffer, shape (buffer_size, len(G)) *)
  spikespace : list bool;     (* events of G found by the thresholder *)
  v_delayed : list V;         (* S.v_delayed *)
  I_post : list V;            (* H.I *)
}.

(** [v_buffer[buffer_pointer, :] = v].  numpy refuses the assignment when
    the row and [v] differ in length; both have [len(G)] entries in every
    state the program reaches. *)
Definition update_v_buffer (vs : list V) (vb : list (list V)) (p : Z)
  : result (list (list V)) :=
  r ← np_index (length vb) p;
  match vb !! r with
  | Some row =>
    if decide (length row = length vs) then Ok (<[r := vs]> vb)
    else Raise ValueError
  | None => Raise IndexError
  end.

(** [v_buffer_from_synapse[(buffer_pointer_from_synapse - delay_step) % buffer_size, i]].
    The difference is taken in [Z]; Brian2 takes it in 32 bits, which is the
    same on every state the script reaches (pointer below 10, delays in
    [1, 9]) and whenever [int32] holds of the operands and the difference. *)
Definition get_v_delayed (vb : list (list V)) (p : Z) (bsize : Z) (i : nat) (d : Z)
  : result V :=
  r ← np_index (length vb) ((p - d) `mod` bsize);
  match vb !! r with
  | Some row =>
    c ← np_index (length row) (Z.of_nat i);
    match row !! c with
    | Some x => Ok x
    | None => Raise IndexError
    end
  | None => Raise IndexError
  end.

(** [buffer_pointer = (buffer_pointer + 1) % buffer_size] then
    [return_ = update_v_buffer(v, v_buffer, buffer_pointer)] *)
Definition run_buffer_updater (net : network) (s : state) : result state :=
  let p := (buffer_pointer s + 1) `mod` buffer_size net in
  vb ← update_v_buffer (v s) (v_buffer s) p;
  Ok (State (v s) p vb (spikespace s) (v_delayed s) (I_post s)).

(** [v_delayed = get_v_delayed(v_buffer_from_synapse,
    buffer_pointer_from_synapse, buffer_size, i, delay_step)], per synapse. *)
Fixpoint fetch_delayed (net : network) (s : state) (cs : list synapse)
  : result (list V) :=
  match cs with
  | [] => Ok []
  | c :: cs' =>
    x ← get_v_delayed (v_buffer s) (buffer_pointer s) (buffer_size net)
          (syn_i c) (delay_step c);
    xs ← fetch_delayed net s cs';
    Ok (x :: xs)
  end.

Definition run_get_new_v_delayed (net : network) (s : state) : result state :=
  vd ← fetch_delayed net s (synapses net);
  Ok (State (v s) (buffer_pointer s) (v_buffer s) (spikespace s) vd (I_post s)).

(** The sum of [v_delayed*w] over the synapses that end in [j], taken in
    synapse order from [0.0] (numpy's [bincount] with weights). *)
Fixpoint summed (j : nat) (cs : list synapse) (vd : list V) (acc : V) : V :=
  match cs, vd with
  | c :: cs', x :: vd' =>
    summed j cs' vd' (if decide (syn_j c = j) then vadd acc (vmul x (w c)) else acc)
  | _, _ => acc
  end.

(** The target variable is assigned as a whole; a target index outside
    [H] makes the assigned array too long. *)
Definition run_summed_variable (net : network) (s : state) : result state :=
  if forallb (λ c, bool_decide (syn_j c < N net)%nat) (synapses net) then
    Ok (State (v s) (buffer_pointer s) (v_buffer s) (spikespace s) (v_delayed s)
          ((λ j, summed j (synapses net) (v_delayed s) vzero) <$> seq 0 (N net)))
  else Raise ValueError.

(** One Euler step of [dv/dt = 0.4/ms]. *)
Definition euler (x : V) : V := vadd x rate_dt.

Definition run_G_stateupdater (s : state) : state :=
  State (euler <$> v s) (buffer_pointer s) (v_buffer s) (spikespace s)
    (v_delayed s) (I_post s).

(** [threshold='v > 4.0'] *)
Definition above (x : V) : bool := vgtb x v_th.

Definition run_G_thresholder (s : state) : state :=
  State (v s) (buffer_pointer s) (v_buffer s) (above <$> v s)
    (v_delayed s) (I_post s).

(** [reset='v = 0.0'], applied to the neurons that spiked. *)
Definition reset_one (x : V) (spiked : bool) : V := if spiked then vzero else x.

Definition run_G_resetter (s : state) : state :=
  State (zip_with reset_one (v s) (spikespace s)) (buffer_pointer s)
    (v_buffer s) (spikespace s) (v_delayed s) (I_post s).

Definition run_code (net : network) (c : code) (s : state) : result state :=
  match c with
  | buffer_updater => run_buffer_updater net s
  | get_new_v_delayed => run_get_new_v_delayed net s
  | summed_variable_I_post => run_summed_variable net s
  | G_stateupdater => Ok (run_G_stateupdater s)
  | H_stateupdater => Ok s
  | G_thresholder => Ok (run_G_thresholder s)
  | G_resetter => Ok (run_G_resetter s)
  end.

Fixpoint run_codes (net : network) (cs : list code) (s : state) : result state :=
  match cs with
  | [] => Ok s
  | c :: cs' => s' ← run_code net c s; run_codes net cs' s'
  end.

(** One time step: every object once, in schedule order. *)
Definition tick (net : network) (s : state) : result state :=
  run_codes net schedule s.

(** [run(simulation_time)]: [n = simulation_time / dt] time steps. *)
Fixpoint run (net : network) (n : nat) (s : state) : result state :=
  match n with
  | O => Ok s
  | S n' => s' ← run net n' s; tick net s'
  end.

(** ** Construction *)

(** [S.connect()]: all pairs, by source index and then target index; the
    parameter [w] is never assigned and keeps its initial value [0.0];
    [S.delay_step = delays] assigns the delays in synapse order. *)
Definition all_pairs (nb : nat) : list (nat * nat) :=
  i ← seq 0 nb; (λ j, (i, j)) <$> seq 0 nb.

Definition connect (nb : nat) (weights : list V) (delays : list Z) : list synapse :=
  zip_with (λ '(i, j) '(x, d), Synapse i j x d) (all_pairs nb) (zip weights delays).

(** Lines 31 to 75, for the delays drawn at line 27.  [NeuronGroup] refuses
    a size below 1; numpy refuses an array of negative size. *)
Definition construct_with (nb : nat) (weights : list V) (delays : list Z)
  : result (network * state) :=
  if bool_decide (nb < 1)%nat then Raise ValueError else
  m ← py_max delays;
  let bsize := 1 + m in
  if bool_decide (bsize < 0) then Raise ValueError else
  let cs := connect nb weights delays in
  Ok (Network nb bsize cs,
      State (replicate nb vzero) 0
        (replicate (Z.to_nat bsize) (replicate nb vzero))
        (replicate nb false) (replicate (length cs) vzero) (replicate nb vzero)).

Definition construct (nb : nat) (delays : list Z) : result (network * state) :=
  construct_with nb (replicate (nb ^ 2) vzero) delays.

(** The states at the start of time steps [0 .. n]. *)
Fixpoint trace (net : network) (n : nat) (s : state) : result (list state) :=
  match n with
  | O => Ok [s]
  | S n' => ss ← trace net n' s; s' ← run net n s; Ok (ss ++ [s'])
  end.

(** [Simulation(nb_neurons, simulation_time)], with the entropy [rnd] that
    [randint] consumes and [n] time steps in [simulation_time]. *)
Definition Simulation (nb_neurons : nat) (rnd : nat → Z) (n : nat)
  : result (list state) :=
  '(net, s0) ← construct nb_neurons (draw_delays nb_neurons rnd);
  trace net n s0.

(** ** Quantities the properties are stated with *)

(** [v] of source [i] when time step [k] begins. *)
Definition v_at (net : network) (s0 : state) (i : nat) (k : nat) : V :=
  match run net k s0 with
  | Ok s => default vzero (v s !! i)
  | Raise _ => vzero
  end.

(** The same, with the initial content of the history before the start. *)
Definition v_hist (net : network) (s0 : state) (i : nat) (k : Z) : V :=
  if bool_decide (0 ≤ k) then v_at net s0 i (Z.to_nat k) else vzero.

(** The row a time step writes when it starts with pointer [p], and the
    row a synapse of delay [d] reads under pointer [p]. *)
Definition write_row (bsize p : Z) : Z := (p + 1) `mod` bsize.
Definition read_row (bsize p d : Z) : Z := (p - d) `mod` bsize.

(** [c1] runs before [c2] in every time step. *)
Definition runs_before (c1 c2 : code) : Prop :=
  ∃ a b, position c1 schedule = Some a ∧ position c2 schedule = Some b ∧ (a < b)%nat.

(** Source [i] crosses the threshold during time step [t]: the thresholder
    of that step records a spike for it. *)
Definition crosses (net : network) (s0 : state) (i t : nat) : Prop :=
  match run net (S t) s0 with
  | Ok s => spikespace s !! i = Some true
  | Raise _ => False
  end.

(** ** Well-formedness *)

(** Synapse indices lie inside the groups and the buffer has rows. *)
Definition safe_network (net : network) : Prop :=
  0 < buffer_size net ∧
  Forall (λ c, (syn_i c < N net)%nat ∧ (syn_j c < N net)%nat) (synapses net).

(** Every delay is at least one step and at most [buffer_size - 1]. *)
Definition delays_fit (net : network) : Prop :=
  Forall (λ c, 1 ≤ delay_step c ≤ buffer_size net - 1) (synapses net).

(** Shapes of the arrays. *)
Definition wf_state (net : network) (s : state) : Prop :=
  length (v s) = N net ∧
  length (v_buffer s) = Z.to_nat (buffer_size net) ∧
  Forall (λ row, length row = N net) (v_buffer s) ∧
  0 ≤ buffer_pointer s < buffer_size net.

(** The state right after construction: pointer 0, history all [0.0]. *)
Definition fresh (net : network) (s : state) : Prop :=
  length (v s) = N net ∧
  buffer_pointer s = 0 ∧
  v_buffer s = replicate (Z.to_nat (buffer_size net)) (replicate (N net) vzero).

(** ** The time step without its error cases *)

(** Update, threshold and reset of [v] over one time step. *)
Definition next_v (vs : list V) : list V :=
  (λ x, reset_one (euler x) (above (euler x))) <$> vs.

(** The entry a synapse fetches from history [vb] under pointer [p]. *)
Definition entry (vb : list (list V)) (r : Z) (i : nat) : option V :=
  vb !! Z.to_nat r ≫= (.!! i).

Definition delayed_of (net : network) (vb : list (list V)) (p : Z) (c : synapse) : V :=
  default vzero (entry vb (read_row (buffer_size net) p (delay_step c)) (syn_i c)).

Definition tick_pure (net : network) (s : state) : state :=
  let p := write_row (buffer_size net) (buffer_pointer s) in
  let vb := <[Z.to_nat p := v s]> (v_buffer s) in
  let vd := delayed_of net vb p <$> synapses net in
  State (next_v (v s)) p vb (above <$> (euler <$> v s)) vd
    ((λ j, summed j (synapses net) vd vzero) <$> seq 0 (N net)).

Fixpoint run_pure (net : network) (n : nat) (s : state) : state :=
  match n with
  | O => s
  | S n' => tick_pure net (run_pure net n' s)
  end.



End Model.

Arguments synapse V : clear implicits.
Arguments network V : clear implicits.
Arguments state V : clear implicits.

(** ** An exact instance: rationals in lowest terms *)

#[global] Instance Q_scalar : Scalar Q := {|
  vzero := 0%Q;
  vadd x y := Qred (x + y);
  vmul x y := Qred (x * y);
  vgtb x y := negb (Qle_bool x y);
  rate_dt := (2 # 5)%Q;
  v_th := 4%Q;
|}.

(** The concrete scenario: one source, one target, one connection with
    [w = 1] and [delay_step = 2], hence three rows of history. *)
Definition scenario_net : network Q := Network 1 3 [Synapse 0 0 1%Q 2].

Definition scenario_s0 : state Q :=
  State [0%Q] 0 (replicate 3 [0%Q]) [false] [0%Q] [0%Q].

(** The order of phases the specification's step engine prescribes. *)
Definition claimed_phases : list phase :=
  [IntrinsicUpdate; BufferWrite; DelayedAggregate; ThresholdReset].

(** ** The program as run *)

Section Program.
Context {V : Type} `{Scalar V}.

(** What a caller can record of a state: [v] of every source and [I] of
    every target. *)
Definition observable (s : state V) : list V * list V := (v s, I_post s).

(** [nb_neurons, simulation_time = 600, 10000*ms] and
    [Simulation(nb_neurons, simulation_time)]: with [dt = 1*ms] the run
    takes 10000 time steps. *)
Definition main (rnd : nat → Z) : result (list (state V)) :=
  Simulation 600 rnd (100 * 100).

(** What the unassigned weights, all [0.0], need of the arithmetic, stated
    for a class [good] of scalars that contains [0.0] and is closed under
    the Euler step (for binary64: the finite values that are not
    negative): a good value times [0.0] is [0.0], and [0.0 + 0.0 = 0.0]. *)
Definition zero_absorbs_on (good : V → Prop) : Prop :=
  good vzero ∧ (∀ x, good x → good (euler x)) ∧
  (∀ x, good x → vmul x vzero = vzero) ∧ vadd vzero vzero = vzero.



End Program.

(** Brian2 stores [integer] variables ([buffer_pointer], [delay_step]) in
    32 bits.  No state the script reaches leaves this range: the pointer is
    below 10 and the delays lie in [1, 9]. *)
Definition int32 (z : Z) : Prop := - 2 ^ 31 ≤ z < 2 ^ 31.

(** ** The schedule *)

Ltac solve_runs_before a b :=
  exists a, b; split; [reflexivity|split; [reflexivity|lia]].

Lemma schedule_eq :
  schedule = [buffer_updater; get_new_v_delayed; summed_variable_I_post;
              H_stateupdater; G_stateupdater; G_thresholder; G_resetter].
Proof. reflexivity. Qed.

(** ** Index arithmetic *)

Lemma np_index_in_range (len : nat) (k : Z) :
  0 ≤ k < Z.of_nat len → np_index len k = Ok (Z.to_nat k).
Proof. intros Hk. unfold np_index. by rewrite bool_decide_eq_true_2. Qed.

Lemma np_index_nat (len i : nat) :
  (i < len)%nat → np_index len (Z.of_nat i) = Ok i.
Proof. intros Hi. rewrite np_index_in_range by lia. by rewrite Nat2Z.id. Qed.

Lemma mod_distinct (a b m : Z) :
  0 < a - b < m → a `mod` m ≠ b `mod` m.
Proof.
  intros Hab Heq.
  assert (Hz : (a - b) `mod` m = 0).
  { rewrite Zminus_mod, Heq, Z.sub_diag. apply Z.mod_0_l. lia. }
  rewrite Z.mod_small in Hz by lia. lia.
Qed.

Lemma write_row_bounds (bsize p : Z) :
  0 < bsize → 0 ≤ write_row bsize p < bsize.
Proof. intros. unfold write_row. by apply Z.mod_pos_bound. Qed.

Lemma read_row_bounds (bsize p d : Z) :
  0 < bsize → 0 ≤ read_row bsize p d < bsize.
Proof. intros. unfold read_row. by apply Z.mod_pos_bound. Qed.

Lemma read_row_shift (bsize p d : Z) :
  read_row bsize (write_row bsize p) d = (p + 1 - d) `mod` bsize.
Proof. unfold read_row, write_row. by rewrite Zminus_mod_idemp_l. Qed.

Lemma randint_range (low high r : Z) :
  low < high → low ≤ randint low high r < high.
Proof.
  intros. unfold randint.
  pose proof (Z.mod_pos_bound r (high - low)). lia.
Qed.

Lemma fold_max_bounds (l : list Z) (x : Z) :
  fold_left Z.max l x ∈ x :: l ∧ Forall (λ d, d ≤ fold_left Z.max l x) (x :: l).
Proof.
  revert x. induction l as [|y l IH]; intros x; simpl.
  - split; [by left|]. by repeat constructor.
  - destruct (IH (x `max` y)) as [Hin Hall].
    apply Forall_cons_1 in Hall as [Hxy Hl]. split.
    + apply elem_of_cons in Hin as [Hin|Hin].
      * rewrite Hin. destruct (Z.max_spec x y) as [[_ ->]|[_ ->]].
        -- right. by left.
        -- by left.
      * right. by right.
    + constructor; [lia|]. constructor; [lia|done].
Qed.

Lemma py_max_bounds (l : list Z) (m : Z) :
  py_max l = Ok m → m ∈ l ∧ Forall (λ d, d ≤ m) l.
Proof.
  destruct l as [|x l]; [done|]. simpl. intros [= <-].
  apply fold_max_bounds.
Qed.

(** ** One time step *)

Section Step.
Context {V : Type} `{Scalar V}.
Implicit Types (net : network V) (s : state V) (c : synapse V).

Lemma zip_reset (vs : list V) :
  zip_with reset_one (euler <$> vs) (above <$> (euler <$> vs)) = next_v vs.
Proof.
  unfold next_v. induction vs as [|x vs IH]; csimpl; [done|]. by rewrite IH.
Qed.

Lemma length_next_v (vs : list V) : length (next_v vs) = length vs.
Proof. unfold next_v. by rewrite length_fmap. Qed.

Lemma update_v_buffer_ok (vs : list V) (vb : list (list V)) (p : Z) (n : nat) :
  0 ≤ p < Z.of_nat (length vb) →
  Forall (λ row, length row = n) vb →
  length vs = n →
  update_v_buffer vs vb p = Ok (<[Z.to_nat p := vs]> vb).
Proof.
  intros Hp Hrows Hvs. unfold update_v_buffer.
  rewrite np_index_in_range by done. simpl.
  destruct (lookup_lt_is_Some_2 vb (Z.to_nat p)) as [row Hrow]; [lia|].
  rewrite Hrow.
  rewrite Forall_lookup in Hrows. rewrite (Hrows _ _ Hrow), Hvs.
  by rewrite decide_True.
Qed.

Lemma get_v_delayed_ok net (vb : list (list V)) (p : Z) c :
  0 < buffer_size net →
  length vb = Z.to_nat (buffer_size net) →
  Forall (λ row, length row = N net) vb →
  (syn_i c < N net)%nat →
  get_v_delayed vb p (buffer_size net) (syn_i c) (delay_step c)
  = Ok (delayed_of net vb p c).
Proof.
  intros HB Hlen Hrows Hi. unfold get_v_delayed, delayed_of, entry, read_row.
  pose proof (Z.mod_pos_bound (p - delay_step c) (buffer_size net) HB) as Hr.
  rewrite np_index_in_range by lia. simpl.
  destruct (lookup_lt_is_Some_2 vb
    (Z.to_nat ((p - delay_step c) `mod` buffer_size net))) as [row Hrow]; [lia|].
  rewrite Hrow. simpl.
  rewrite Forall_lookup in Hrows. specialize (Hrows _ _ Hrow).
  rewrite np_index_nat by lia. simpl.
  destruct (lookup_lt_is_Some_2 row (syn_i c)) as [x Hx]; [lia|].
  by rewrite Hx.
Qed.

Lemma fetch_delayed_ok net s (cs : list (synapse V)) :
  0 < buffer_size net →
  length (v_buffer s) = Z.to_nat (buffer_size net) →
  Forall (λ row, length row = N net) (v_buffer s) →
  Forall (λ c, (syn_i c < N net)%nat) cs →
  fetch_delayed net s cs
  = Ok (delayed_of net (v_buffer s) (buffer_pointer s) <$> cs).
Proof.
  intros HB Hlen Hrows. induction 1 as [|c cs Hc Hcs IH]; simpl; [done|].
  rewrite get_v_delayed_ok by done. simpl. by rewrite IH.
Qed.

Lemma safe_forallb net :
  safe_network net →
  forallb (λ c, bool_decide (syn_j c < N net)%nat) (synapses net) = true.
Proof.
  intros [_ Hs]. apply forallb_forall. intros c Hc.
  rewrite List.Forall_forall in Hs.
  apply bool_decide_eq_true_2. by destruct (Hs c Hc).
Qed.

Lemma safe_sources net :
  safe_network net → Forall (λ c, (syn_i c < N net)%nat) (synapses net).
Proof. intros [_ Hs]. eapply List.Forall_impl; [|exact Hs]. by intros c [? _]. Qed.

(** A time step of a well-shaped state raises nothing and is [tick_pure]. *)
Lemma tick_ok net s :
  safe_network net → wf_state net s → tick net s = Ok (tick_pure net s).
Proof.
  intros Hsafe (Hv & Hlen & Hrows & Hp).
  pose proof Hsafe as [HB _].
  pose proof (write_row_bounds (buffer_size net) (buffer_pointer s) HB) as Hw.
  unfold tick. rewrite schedule_eq. simpl.
  unfold run_buffer_updater. fold (write_row (buffer_size net) (buffer_pointer s)).
  rewrite (update_v_buffer_ok _ _ _ (N net)) by (done || lia). simpl.
  unfold run_get_new_v_delayed.
  rewrite fetch_delayed_ok; simpl;
    [|done|by rewrite length_insert
     |by apply Forall_insert|by apply safe_sources].
  unfold run_summed_variable. simpl. rewrite safe_forallb by done. simpl.
  unfold run_G_resetter, tick_pure. simpl. by rewrite zip_reset.
Qed.

Lemma tick_pure_wf net s :
  safe_network net → wf_state net s → wf_state net (tick_pure net s).
Proof.
  intros [HB _] (Hv & Hlen & Hrows & Hp). unfold tick_pure. repeat split; simpl.
  - by rewrite length_next_v.
  - by rewrite length_insert.
  - by apply Forall_insert.
  - by apply write_row_bounds.
  - by apply write_row_bounds.
Qed.

Lemma run_pure_wf net s n :
  safe_network net → wf_state net s → wf_state net (run_pure net n s).
Proof. intros ??. induction n; simpl; [done|]. by apply tick_pure_wf. Qed.

(** [run] raises nothing either, whatever the number of steps. *)
Lemma run_ok net s n :
  safe_network net → wf_state net s → run net n s = Ok (run_pure net n s).
Proof.
  intros Hsafe Hwf. induction n as [|n IH]; simpl; [done|].
  rewrite IH. simpl. apply tick_ok; [done|]. by apply run_pure_wf.
Qed.

Lemma fresh_wf net s : safe_network net → fresh net s → wf_state net s.
Proof.
  intros [HB _] (Hv & Hp & Hb). repeat split; try done.
  - by rewrite Hb, length_replicate.
  - rewrite Hb. apply Forall_replicate. by rewrite length_replicate.
  - lia.
  - lia.
Qed.

End Step.

(** ** The content of the history along a run *)

Section History.
Context {V : Type} `{Scalar V}.
Implicit Types (net : network V) (s : state V) (c : synapse V).
Variables (net : network V) (s0 : state V).
Hypothesis Hsafe : safe_network net.
Hypothesis Hfresh : fresh net s0.

#[local] Abbreviation B := (buffer_size net).
#[local] Abbreviation st n := (run_pure net n s0).

Lemma run_pure_pointer (n : nat) : buffer_pointer (st n) = Z.of_nat n `mod` B.
Proof.
  destruct Hsafe as [HB _]. induction n as [|n IH].
  - simpl. destruct Hfresh as (_ & -> & _). by rewrite Z.mod_0_l by lia.
  - cbn [run_pure tick_pure buffer_pointer]. rewrite IH. unfold write_row.
    rewrite Zplus_mod_idemp_l. f_equal. lia.
Qed.

Lemma run_pure_buffer (n : nat) :
  v_buffer (st (S n))
  = <[Z.to_nat ((Z.of_nat n + 1) `mod` B) := v (st n)]> (v_buffer (st n)).
Proof.
  destruct Hsafe as [HB _].
  cbn [run_pure tick_pure v_buffer]. rewrite run_pure_pointer. unfold write_row.
  by rewrite Zplus_mod_idemp_l.
Qed.

Lemma run_pure_shape (n : nat) : wf_state net (st n).
Proof. apply run_pure_wf; [done|]. by apply fresh_wf. Qed.

(** The row written during step [k] keeps its content for the next
    [buffer_size - 1] steps. *)
Lemma history_recent (n k : nat) :
  (k < n)%nat → Z.of_nat n ≤ Z.of_nat k + B →
  v_buffer (st n) !! Z.to_nat ((Z.of_nat k + 1) `mod` B) = Some (v (st k)).
Proof.
  destruct Hsafe as [HB _].
  induction n as [|n IH]; intros Hk Hn; [lia|].
  rewrite run_pure_buffer.
  pose proof (Z.mod_pos_bound (Z.of_nat n + 1) B HB) as Hrow.
  pose proof (Z.mod_pos_bound (Z.of_nat k + 1) B HB) as Hrow'.
  destruct (decide (k = n)) as [->|Hne].
  - apply list_lookup_insert_eq.
    destruct (run_pure_shape n) as (_ & -> & _). lia.
  - rewrite list_lookup_insert_ne; [apply IH; lia|].
    intros Heq. apply Z2Nat.inj in Heq; [|lia..].
    revert Heq. apply mod_distinct. lia.
Qed.

(** Rows no step has written yet hold the initial zeros. *)
Lemma history_unwritten (n r : nat) :
  Z.of_nat n < B → r = 0%nat ∨ ((n < r)%nat ∧ Z.of_nat r < B) →
  v_buffer (st n) !! r = Some (replicate (N net) vzero).
Proof.
  destruct Hsafe as [HB _].
  induction n as [|n IH]; intros Hn Hr.
  - simpl. destruct Hfresh as (_ & _ & ->).
    apply lookup_replicate_2. lia.
  - rewrite run_pure_buffer. rewrite Z.mod_small by lia.
    rewrite list_lookup_insert_ne by lia. apply IH; lia.
Qed.

Lemma v_at_pure (i k : nat) : v_at net s0 i k = default vzero (v (st k) !! i).
Proof. unfold v_at. rewrite run_ok; [done..|]. by apply fresh_wf. Qed.

Lemma v_length (n : nat) : length (v (st n)) = N net.
Proof. by destruct (run_pure_shape n) as (-> & _). Qed.

(** What a synapse fetches during step [t]: the value of its source [d]
    steps earlier, or the initial zero when the run is younger than [d]. *)
Lemma delayed_law (t : nat) c :
  (syn_i c < N net)%nat → 1 ≤ delay_step c ≤ B - 1 →
  delayed_of net (v_buffer (st (S t))) (buffer_pointer (st (S t))) c
  = v_hist net s0 (syn_i c) (Z.of_nat t - delay_step c).
Proof.
  destruct Hsafe as [HB _]. intros Hi Hd.
  unfold delayed_of, entry, read_row, v_hist. rewrite run_pure_pointer.
  rewrite Zminus_mod_idemp_l.
  case_bool_decide as Hpast.
  - rewrite v_at_pure.
    replace (Z.of_nat (S t) - delay_step c)
      with (Z.of_nat (Z.to_nat (Z.of_nat t - delay_step c)) + 1) by lia.
    rewrite history_recent by lia. done.
  - assert (Hrow : ∃ r : nat,
      Z.to_nat ((Z.of_nat (S t) - delay_step c) `mod` B) = r ∧
      (r = 0%nat ∨ ((S t < r)%nat ∧ Z.of_nat r < B))).
    { destruct (decide (Z.of_nat (S t) - delay_step c = 0)) as [->|Hnz].
      - exists 0%nat. rewrite Z.mod_0_l by lia. auto.
      - exists (Z.to_nat (Z.of_nat (S t) - delay_step c + B)).
        split; [|right; lia].
        f_equal.
        rewrite <- (Z_mod_plus_full _ 1 B), Z.mul_1_l.
        apply Z.mod_small. lia. }
    destruct Hrow as (r & -> & Hr).
    rewrite history_unwritten by lia. simpl.
    by rewrite lookup_replicate_2 by lia.
Qed.

Lemma v_delayed_run (t : nat) :
  v_delayed (st (S t))
  = (λ c, delayed_of net (v_buffer (st (S t))) (buffer_pointer (st (S t))) c)
      <$> synapses net.
Proof. done. Qed.

End History.

(** ** Construction *)

Section Construction.
Context {V : Type} `{Scalar V}.
Implicit Types (net : network V) (s : state V) (c : synapse V).

Lemma length_all_pairs (nb : nat) : length (all_pairs nb) = (nb * nb)%nat.
Proof.
  unfold all_pairs.
  assert (Hgen : ∀ l : list nat,
    length (i ← l; (λ j, (i, j)) <$> seq 0 nb) = (length l * nb)%nat).
  { induction l as [|x l IH]; csimpl; [done|].
    rewrite length_app, length_fmap, length_seq, IH. lia. }
  by rewrite Hgen, length_seq.
Qed.

Lemma all_pairs_bounds (nb : nat) :
  Forall (λ ij, (ij.1 < nb)%nat ∧ (ij.2 < nb)%nat) (all_pairs nb).
Proof.
  apply Forall_forall. intros [i j] Hin. unfold all_pairs in Hin.
  apply list_elem_of_bind in Hin as (i' & Hj & Hi).
  apply list_elem_of_fmap in Hj as (j' & [= -> ->] & Hj).
  apply elem_of_seq in Hi. apply elem_of_seq in Hj. simpl. lia.
Qed.

Lemma connect_gen_indices (P : nat * nat → Prop) (ps : list (nat * nat))
    (qs : list (V * Z)) :
  Forall P ps →
  Forall (λ c, P (syn_i c, syn_j c))
    (zip_with (λ '(i, j) '(x, d), Synapse i j x d) ps qs).
Proof.
  intros Hps. revert qs.
  induction Hps as [|[i j] ps Hp Hps IH]; intros [|[x d] qs]; simpl;
    try constructor; auto.
Qed.

Lemma connect_gen_delays (ps : list (nat * nat)) (ws : list V) (ds : list Z) :
  length ps = length ds → length ws = length ds →
  delay_step <$> zip_with (λ '(i, j) '(x, d), Synapse i j x d) ps (zip ws ds) = ds.
Proof.
  revert ps ws. induction ds as [|d ds IH]; intros [|[i j] ps] [|x ws];
    simpl; intros Hps Hws; try done.
  f_equal. apply IH; lia.
Qed.

Lemma connect_indices (nb : nat) (ws : list V) (ds : list Z) :
  Forall (λ c, (syn_i c < nb)%nat ∧ (syn_j c < nb)%nat) (connect nb ws ds).
Proof.
  unfold connect.
  apply (connect_gen_indices (λ ij, (ij.1 < nb)%nat ∧ (ij.2 < nb)%nat)).
  apply all_pairs_bounds.
Qed.

Lemma connect_delays (nb : nat) (ws : list V) (ds : list Z) :
  length ds = (nb ^ 2)%nat → length ws = (nb ^ 2)%nat →
  delay_step <$> connect nb ws ds = ds.
Proof.
  intros Hds Hws. apply connect_gen_delays.
  - rewrite length_all_pairs, Hds, Nat.pow_2_r. done.
  - congruence.
Qed.

Lemma length_draw_delays (nb : nat) (rnd : nat → Z) :
  length (draw_delays nb rnd) = (nb ^ 2)%nat.
Proof. unfold draw_delays. by rewrite length_fmap, length_seq. Qed.

Lemma draw_delays_range (nb : nat) (rnd : nat → Z) :
  Forall (λ d, 1 ≤ d ≤ delay_max - 1) (draw_delays nb rnd).
Proof.
  unfold draw_delays. apply Forall_fmap, Forall_forall. intros k _. simpl.
  pose proof (randint_range 1 delay_max (rnd k)). unfold delay_max in *. lia.
Qed.

(** With at least one neuron and delays of at least one step the
    construction succeeds and yields a well-formed network in its fresh
    state, with [buffer_size = 1 + max(delays)]. *)
Lemma construct_ok (nb : nat) (delays : list Z) :
  (1 ≤ nb)%nat → length delays = (nb ^ 2)%nat → Forall (λ d, 1 ≤ d) delays →
  ∃ net s0 m,
    construct nb delays = Ok (net, s0) ∧
    N net = nb ∧
    delay_step <$> synapses net = delays ∧
    py_max delays = Ok m ∧ buffer_size net = 1 + m ∧
    safe_network net ∧ delays_fit net ∧ fresh net s0.
Proof.
  intros Hnb Hlen Hpos.
  destruct (py_max delays) as [m|e] eqn:Hmax.
  2:{ destruct delays; [|done]. rewrite Nat.pow_2_r in Hlen. simpl in Hlen. nia. }
  destruct (py_max_bounds _ _ Hmax) as [Hin Hle].
  assert (1 ≤ m) as Hm.
  { rewrite Forall_forall in Hpos. by apply Hpos. }
  assert (Hds : delay_step <$> connect nb (replicate (nb ^ 2) vzero) delays = delays).
  { apply connect_delays; [done|]. by rewrite length_replicate. }
  eexists _, _, m. unfold construct, construct_with.
  rewrite bool_decide_eq_false_2 by lia. rewrite Hmax. simpl.
  rewrite bool_decide_eq_false_2 by lia.
  split; [reflexivity|]. cbn [N buffer_size synapses].
  split; [done|]. split; [exact Hds|]. split; [done|]. split; [done|].
  split; [|split].
  - split; [cbn; lia|apply connect_indices].
  - unfold delays_fit. cbn [N buffer_size synapses].
    rewrite <- Hds in Hle, Hpos. rewrite Forall_fmap in Hle, Hpos.
    rewrite Forall_forall in Hle, Hpos. apply Forall_forall. intros c Hc.
    specialize (Hle c Hc). specialize (Hpos c Hc). simpl in *. lia.
  - split; [cbn; by rewrite length_replicate|]. by split.
Qed.

End Construction.

(** ** Aggregation and the delay law *)

Section Aggregation.
Context {V : Type} `{Scalar V}.
Implicit Types (net : network V) (s : state V) (c : synapse V).


Lemma entry_delayed net (vb : list (list V)) (p : Z) c :
  0 < buffer_size net →
  length vb = Z.to_nat (buffer_size net) →
  Forall (λ row, length row = N net) vb →
  (syn_i c < N net)%nat →
  entry vb (read_row (buffer_size net) p (delay_step c)) (syn_i c)
  = Some (delayed_of net vb p c).
Proof.
  intros HB Hlen Hrows Hi. unfold delayed_of, entry.
  pose proof (read_row_bounds (buffer_size net) p (delay_step c) HB) as Hr.
  destruct (lookup_lt_is_Some_2 vb
    (Z.to_nat (read_row (buffer_size net) p (delay_step c)))) as [row Hrow]; [lia|].
  rewrite Hrow. simpl.
  rewrite Forall_lookup in Hrows. specialize (Hrows _ _ Hrow).
  destruct (lookup_lt_is_Some_2 row (syn_i c)) as [x Hx]; [lia|].
  by rewrite Hx.
Qed.

Lemma synapse_lookup_safe net (k : nat) c :
  safe_network net → synapses net !! k = Some c →
  (syn_i c < N net)%nat ∧ (syn_j c < N net)%nat.
Proof. intros [_ Hs] Hk. rewrite Forall_lookup in Hs. eauto. Qed.

Lemma synapse_lookup_fit net (k : nat) c :
  delays_fit net → synapses net !! k = Some c →
  1 ≤ delay_step c ≤ buffer_size net - 1.
Proof. intros Hs Hk. unfold delays_fit in Hs. rewrite Forall_lookup in Hs. eauto. Qed.

Lemma v_hist_past net s0 (i t : nat) (d : Z) :
  1 ≤ d ≤ Z.of_nat t →
  v_hist net s0 i (Z.of_nat t - d) = v_at net s0 i (t - Z.to_nat d).
Proof.
  intros Hd. unfold v_hist. rewrite bool_decide_eq_true_2 by lia.
  f_equal. lia.
Qed.

Lemma v_hist_before net s0 (i t : nat) (d : Z) :
  Z.of_nat t < d → v_hist net s0 i (Z.of_nat t - d) = vzero.
Proof. intros Hd. unfold v_hist. by rewrite bool_decide_eq_false_2 by lia. Qed.

(** The fetched values of a whole step, in terms of the sources' past. *)
Lemma v_delayed_law net s0 (t : nat) :
  safe_network net → delays_fit net → fresh net s0 →
  v_delayed (run_pure net (S t) s0)
  = (λ c, v_hist net s0 (syn_i c) (Z.of_nat t - delay_step c)) <$> synapses net.
Proof.
  intros Hsafe Hfit Hfresh. rewrite v_delayed_run.
  apply Forall_fmap_ext_1, Forall_lookup. intros k c Hk.
  apply delayed_law; [done..| |].
  - by destruct (synapse_lookup_safe net k c).
  - by apply (synapse_lookup_fit net k c).
Qed.




(** C3. The buffer update is scheduled once per time step, ahead of the
    delayed read, and no other object touches the pointer or the history;
    it advances the pointer to [(p + 1) mod buffer_size] and then overwrites
    exactly the row of the new pointer with the current [v], leaving the
    shape of the history, its other rows and [v] itself as they were.  A
    time step is this write followed by the remaining objects, none of
    which is the buffer update: the step ends with the pointer and the
    history the write left, and every synapse of the step has read from
    that history under that pointer. *)
Theorem buffer_write_spec net s :
  safe_network net → wf_state net s →
  occurrences buffer_updater schedule = 1%nat ∧
  runs_before buffer_updater get_new_v_delayed ∧
  (∀ cd s1 s2, cd ≠ buffer_updater → run_code net cd s1 = Ok s2 →
     buffer_pointer s2 = buffer_pointer s1 ∧ v_buffer s2 = v_buffer s1) ∧
  ∃ s_w s',
    run_buffer_updater net s = Ok s_w ∧
    buffer_pointer s_w = (buffer_pointer s + 1) `mod` buffer_size net ∧
    v_buffer s_w !! Z.to_nat (buffer_pointer s_w) = Some (v s) ∧
    (∀ r : nat, r ≠ Z.to_nat (buffer_pointer s_w) →
       v_buffer s_w !! r = v_buffer s !! r) ∧
    length (v_buffer s_w) = length (v_buffer s) ∧
    v s_w = v s ∧
    tick net s = Ok s' ∧
    tick net s = run_codes net (tail schedule) s_w ∧
    (buffer_updater ∉ tail schedule) ∧
    buffer_pointer s' = buffer_pointer s_w ∧
    v_buffer s' = v_buffer s_w ∧
    Forall2 (λ c x,
        get_v_delayed (v_buffer s_w) (buffer_pointer s_w) (buffer_size net)
          (syn_i c) (delay_step c) = Ok x)
      (synapses net) (v_delayed s').
Proof.
  intros Hsafe Hwf. pose proof Hsafe as [HB Hs].
  pose proof Hwf as (Hv & Hlen & Hrows & Hp).
  split; [reflexivity|]. split; [solve_runs_before 0%nat 1%nat|]. split.
  - intros cd s1 s2 Hcd Hrun. destruct cd; simpl in Hrun; try done.
    + unfold run_get_new_v_delayed in Hrun.
      destruct (fetch_delayed net s1 (synapses net)); simpl in Hrun; [|done].
      by injection Hrun as <-.
    + unfold run_summed_variable in Hrun.
      destruct (forallb _ _); [|done]. by injection Hrun as <-.
    + by injection Hrun as <-.
    + by injection Hrun as <-.
    + by injection Hrun as <-.
    + by injection Hrun as <-.
  - pose proof (write_row_bounds (buffer_size net) (buffer_pointer s) HB) as Hw.
    unfold write_row in Hw.
    assert (Hwrite : run_buffer_updater net s
      = Ok (State (v s) ((buffer_pointer s + 1) `mod` buffer_size net)
              (<[Z.to_nat ((buffer_pointer s + 1) `mod` buffer_size net) := v s]>
                 (v_buffer s))
              (spikespace s) (v_delayed s) (I_post s))).
    { unfold run_buffer_updater.
      by rewrite (update_v_buffer_ok _ _ _ (N net)) by (done || lia). }
    eexists _, (tick_pure net s). split; [exact Hwrite|].
    cbn [buffer_pointer v_buffer v].
    split; [done|]. split; [apply list_lookup_insert_eq; lia|].
    split; [intros r Hr; by apply list_lookup_insert_ne|].
    split; [apply length_insert|]. split; [done|].
    split; [by apply tick_ok|]. split.
    { unfold tick. rewrite schedule_eq. cbn [run_codes run_code tail].
      by rewrite Hwrite. }
    split.
    { rewrite schedule_eq. cbn [tail]. intros Hin.
      repeat (apply elem_of_cons in Hin as [Hin|Hin]; [discriminate|]).
      by apply elem_of_nil in Hin. }
    split; [done|]. split; [done|].
    cbn [tick_pure v_delayed]. apply Forall2_fmap_r, Forall_Forall2_diag.
    eapply List.Forall_impl; [|apply (safe_sources net Hsafe)].
    intros c Hc. cbn [compose]. apply get_v_delayed_ok; [done| |by apply Forall_insert|done].
    by rewrite length_insert.
Qed.

(** C4. During step [t] a synapse with source [i] and delay [d] obtains the
    entry at row [(p - d) mod buffer_size], column [i] of the history, [p]
    being the pointer left by this step's buffer write; when
    [1 <= d <= buffer_size - 1] and [d <= t] this entry is the [v] of source
    [i] stored [d] steps earlier, and the row read is never the row just
    written. *)
Theorem delayed_lookup_spec net s0 (t k : nat) c :
  safe_network net → fresh net s0 → synapses net !! k = Some c →
  ∃ s_t s_w s' x,
    run net t s0 = Ok s_t ∧
    run_buffer_updater net s_t = Ok s_w ∧
    tick net s_t = Ok s' ∧
    get_v_delayed (v_buffer s_w) (buffer_pointer s_w) (buffer_size net)
      (syn_i c) (delay_step c) = Ok x ∧
    v_delayed s' !! k = Some x ∧
    entry (v_buffer s_w)
      (read_row (buffer_size net) (buffer_pointer s_w) (delay_step c)) (syn_i c)
    = Some x ∧
    (1 ≤ delay_step c ≤ buffer_size net - 1 → delay_step c ≤ Z.of_nat t →
       x = v_at net s0 (syn_i c) (t - Z.to_nat (delay_step c)) ∧
       read_row (buffer_size net) (buffer_pointer s_w) (delay_step c)
       ≠ buffer_pointer s_w).
Proof.
  intros Hsafe Hfresh Hk.
  pose proof (fresh_wf _ _ Hsafe Hfresh) as Hwf0.
  pose proof (run_pure_wf net s0 t Hsafe Hwf0) as Hwf.
  pose proof Hwf as (Hv & Hlen & Hrows & Hp).
  pose proof Hsafe as [HB _].
  destruct (synapse_lookup_safe net k c Hsafe Hk) as [Hi _].
  set (s_t := run_pure net t s0) in *.
  pose proof (write_row_bounds (buffer_size net) (buffer_pointer s_t) HB) as Hw.
  set (p := write_row (buffer_size net) (buffer_pointer s_t)) in *.
  set (vb := <[Z.to_nat p := v s_t]> (v_buffer s_t)).
  assert (Hlen' : length vb = Z.to_nat (buffer_size net))
    by (unfold vb; by rewrite length_insert).
  assert (Hrows' : Forall (λ row, length row = N net) vb)
    by (unfold vb; by apply Forall_insert).
  exists s_t, (State (v s_t) p vb (spikespace s_t) (v_delayed s_t) (I_post s_t)),
    (tick_pure net s_t), (delayed_of net vb p c).
  split; [by apply run_ok|]. split.
  { unfold run_buffer_updater.
    change ((buffer_pointer s_t + 1) `mod` buffer_size net) with p.
    by rewrite (update_v_buffer_ok _ _ _ (N net)) by (done || lia). }
  split; [by apply tick_ok|]. cbn [v_buffer buffer_pointer].
  split; [by apply get_v_delayed_ok|]. split.
  { cbn [tick_pure v_delayed]. fold p vb. by rewrite list_lookup_fmap, Hk. }
  split; [by apply entry_delayed|].
  intros Hd Ht. split.
  - change (delayed_of net vb p c) with
      (delayed_of net (v_buffer (run_pure net (S t) s0))
         (buffer_pointer (run_pure net (S t) s0)) c).
    rewrite delayed_law by done. apply v_hist_past. lia.
  - unfold read_row. rewrite <- (Z.mod_small p (buffer_size net)) at 2 by done.
    apply not_eq_sym, mod_distinct. lia.
Qed.

End Aggregation.

(** ** Whole runs *)

Section Runs.
Context {V : Type} `{Scalar V}.
Implicit Types (net : network V) (s : state V) (c : synapse V).

Lemma trace_ok net s (n : nat) :
  safe_network net → wf_state net s →
  trace net n s = Ok ((λ k, run_pure net k s) <$> seq 0 (S n)).
Proof.
  intros Hsafe Hwf. induction n as [|n IH]; [done|].
  cbn [trace]. rewrite IH. cbn [mbind result_bind].
  rewrite run_ok by done. cbn [mbind result_bind].
  by rewrite (seq_S (S n)), fmap_app.
Qed.

Lemma draws_construct_ok (nb : nat) (rnd : nat → Z) :
  (1 ≤ nb)%nat →
  ∃ net s0 m,
    construct nb (draw_delays nb rnd) = Ok (net, s0) ∧
    N net = nb ∧
    delay_step <$> synapses net = draw_delays nb rnd ∧
    py_max (draw_delays nb rnd) = Ok m ∧ buffer_size net = 1 + m ∧
    safe_network net ∧ delays_fit net ∧ fresh net s0.
Proof.
  intros Hnb. apply construct_ok; [done|apply length_draw_delays|].
  eapply Forall_impl; [apply draw_delays_range|]. simpl. lia.
Qed.


(** C10. For a positive [buffer_size] the row written and the row read lie
    in [0, buffer_size) for every pointer and every delay, negative
    differences included; every delay drawn lies in [1, 9] and is never
    [delay_max = 10]; and a simulation of any length raises no error: each
    of its steps finds all its row and column indices inside the arrays. *)
Theorem no_out_of_bounds (nb : nat) (rnd : nat → Z) (n : nat) (bsize p d : Z) :
  (1 ≤ nb)%nat → 1 ≤ bsize →
  (0 ≤ write_row bsize p < bsize ∧ 0 ≤ read_row bsize p d < bsize) ∧
  Forall (λ d', 1 ≤ d' ≤ 9) (draw_delays nb rnd) ∧
  (delay_max ∉ draw_delays nb rnd) ∧
  ∃ net s0 ss,
    construct nb (draw_delays nb rnd) = Ok (net, s0) ∧
    Simulation nb rnd n = Ok ss ∧ length ss = S n ∧
    Forall (λ s, wf_state net s ∧ is_Ok (tick net s)) ss.
Proof.
  intros Hnb Hb.
  split; [split; [apply write_row_bounds; lia|apply read_row_bounds; lia]|].
  split; [apply draw_delays_range|]. split.
  { intros Hin. pose proof (draw_delays_range nb rnd) as Hr.
    rewrite Forall_forall in Hr. specialize (Hr _ Hin). simpl in Hr. lia. }
  destruct (draws_construct_ok nb rnd Hnb)
    as (net & s0 & m & Hc & _ & _ & _ & _ & Hsafe & _ & Hfresh).
  pose proof (fresh_wf _ _ Hsafe Hfresh) as Hwf.
  exists net, s0, ((λ k, run_pure net k s0) <$> seq 0 (S n)).
  split; [done|]. unfold Simulation. rewrite Hc. cbn [mbind result_bind].
  rewrite trace_ok by done. split; [done|].
  split; [by rewrite length_fmap, length_seq|].
  apply Forall_fmap, Forall_forall. intros k _. simpl.
  pose proof (run_pure_wf net s0 k Hsafe Hwf) as Hk.
  split; [done|]. exists (tick_pure net (run_pure net k s0)). by apply tick_ok.
Qed.

End Runs.

(** ** Threshold, reset and the history *)

Section Reset.
Context {V : Type} `{Scalar V}.
Implicit Types (net : network V) (s : state V) (c : synapse V).
Variables (net : network V) (s0 : state V).
Hypothesis Hsafe : safe_network net.
Hypothesis Hfresh : fresh net s0.

Lemma v_lookup (i k : nat) :
  (i < N net)%nat → v (run_pure net k s0) !! i = Some (v_at net s0 i k).
Proof.
  intros Hi. rewrite (v_at_pure net s0 Hsafe Hfresh).
  destruct (lookup_lt_is_Some_2 (v (run_pure net k s0)) i) as [x Hx].
  { rewrite (v_length net s0 Hsafe Hfresh). done. }
  by rewrite Hx.
Qed.

Lemma v_at_S (i k : nat) :
  (i < N net)%nat →
  v_at net s0 i (S k)
  = reset_one (euler (v_at net s0 i k)) (above (euler (v_at net s0 i k))).
Proof.
  intros Hi. rewrite (v_at_pure net s0 Hsafe Hfresh i (S k)).
  cbn [run_pure tick_pure v]. unfold next_v.
  by rewrite list_lookup_fmap, v_lookup.
Qed.

Lemma crosses_above (i t : nat) :
  (i < N net)%nat →
  crosses net s0 i t ↔ above (euler (v_at net s0 i t)) = true.
Proof.
  intros Hi. unfold crosses.
  rewrite run_ok; [|done|by apply fresh_wf].
  cbn [run_pure tick_pure spikespace].
  rewrite !list_lookup_fmap, v_lookup by done. simpl.
  split; [by intros [= ->]|by intros ->].
Qed.

Lemma written_row (t : nat) :
  v_buffer (run_pure net (S t) s0)
    !! Z.to_nat (buffer_pointer (run_pure net (S t) s0))
  = Some (v (run_pure net t s0)).
Proof.
  rewrite (run_pure_pointer net s0 Hsafe Hfresh).
  replace (Z.of_nat (S t)) with (Z.of_nat t + 1) by lia.
  destruct Hsafe as [HB _].
  apply (history_recent net s0 Hsafe Hfresh); lia.
Qed.

(** C6, as the code has it.  When source [i] crosses the threshold during
    step [t], the row written during step [t] holds the value [v] had when
    the step began, before that step's state update; the row written during
    step [t+1] holds the reset value [0.0]; the earlier row is unchanged by
    then; the resetter never touches the history; and, [0.0] being below the
    threshold, no value stored after step 0 is above the threshold. *)
Theorem reset_visibility_at_step_start (t i : nat) :
  (i < N net)%nat → 2 ≤ buffer_size net → crosses net s0 i t →
  ∃ s1 s2,
    run net (S t) s0 = Ok s1 ∧ run net (S (S t)) s0 = Ok s2 ∧
    entry (v_buffer s1) (buffer_pointer s1) i = Some (v_at net s0 i t) ∧
    above (euler (v_at net s0 i t)) = true ∧
    entry (v_buffer s2) (buffer_pointer s2) i = Some vzero ∧
    entry (v_buffer s2) (buffer_pointer s1) i = Some (v_at net s0 i t) ∧
    (∀ s, v_buffer (run_G_resetter s) = v_buffer s) ∧
    (above vzero = false →
     ∀ u : nat, (0 < u)%nat → above (v_at net s0 i u) = false).
Proof.
  intros Hi HB Hcross. apply crosses_above in Hcross; [|done].
  pose proof (fresh_wf _ _ Hsafe Hfresh) as Hwf.
  exists (run_pure net (S t) s0), (run_pure net (S (S t)) s0).
  rewrite !run_ok by done. split; [done|]. split; [done|].
  unfold entry. split; [by rewrite written_row, <- v_lookup|].
  split; [done|]. split.
  { rewrite written_row. cbn [mbind option_bind]. rewrite v_lookup by done.
    by rewrite v_at_S, Hcross by done. }
  split.
  { rewrite (run_pure_pointer net s0 Hsafe Hfresh).
    replace (Z.of_nat (S t)) with (Z.of_nat t + 1) by lia.
    rewrite (history_recent net s0 Hsafe Hfresh) by lia.
    cbn [mbind option_bind]. by apply v_lookup. }
  split; [done|].
  intros Hzero [|u] Hu; [lia|]. rewrite v_at_S by done.
  by destruct (above (euler (v_at net s0 i u))) eqn:Ha.
Qed.

End Reset.

(** ** The order of the phases, reads before the start, construction *)

(** C2, as the code has it.  Every time step runs the phases in the order
    BufferWrite, DelayedAggregate, IntrinsicUpdate, ThresholdReset: the
    buffer write comes first and completes before any delayed read, the
    state update of [v] follows the aggregation, threshold and reset come
    last; hence the row written during a step holds the [v] the step began
    with, and the step leaves [v] updated and reset. *)
Theorem phase_order :
  tick_phases = [BufferWrite; DelayedAggregate; IntrinsicUpdate; ThresholdReset] ∧
  runs_before buffer_updater get_new_v_delayed ∧
  runs_before get_new_v_delayed summed_variable_I_post ∧
  runs_before summed_variable_I_post G_stateupdater ∧
  runs_before G_stateupdater G_thresholder ∧
  runs_before G_thresholder G_resetter ∧
  last schedule = Some G_resetter ∧
  (∀ (V : Type) (H : Scalar V) (net : network V) (s : state V),
     safe_network net → wf_state net s →
     ∃ s', tick net s = Ok s' ∧
       v_buffer s' !! Z.to_nat (buffer_pointer s') = Some (v s) ∧
       v s' = next_v (v s)).
Proof.
  split; [reflexivity|].
  split; [solve_runs_before 0%nat 1%nat|].
  split; [solve_runs_before 1%nat 2%nat|].
  split; [solve_runs_before 2%nat 4%nat|].
  split; [solve_runs_before 4%nat 5%nat|].
  split; [solve_runs_before 5%nat 6%nat|].
  split; [reflexivity|].
  intros V H net s Hsafe Hwf. exists (tick_pure net s).
  split; [by apply tick_ok|]. split; [|done].
  destruct Hsafe as [HB _]. destruct Hwf as (_ & Hlen & _ & _).
  pose proof (write_row_bounds (buffer_size net) (buffer_pointer s) HB).
  cbn [tick_pure v_buffer buffer_pointer].
  apply list_lookup_insert_eq. lia.
Qed.

(** C7. During a step [t] younger than the delay [d] of a synapse, the
    synapse fetches the initial content [0.0] of the history and nothing is
    raised; in the scenario with one connection of delay 2 the target holds
    [0] after the steps 0 and 1. *)
Theorem pre_start_read :
  (∀ (V : Type) (H : Scalar V) (net : network V) (s0 : state V) (t k : nat)
     (c : synapse V),
     safe_network net → delays_fit net → fresh net s0 →
     synapses net !! k = Some c → Z.of_nat t < delay_step c →
     ∃ s', run net (S t) s0 = Ok s' ∧ v_delayed s' !! k = Some vzero) ∧
  (∀ t : nat, (t < 2)%nat →
     ∃ s', run scenario_net (S t) scenario_s0 = Ok s' ∧ I_post s' = [0%Q]).
Proof.
  split.
  - intros V H net s0 t k c Hsafe Hfit Hfresh Hk Ht.
    exists (run_pure net (S t) s0).
    split; [apply run_ok; [done|by apply fresh_wf]|].
    rewrite v_delayed_law by done. rewrite list_lookup_fmap, Hk. simpl.
    by rewrite v_hist_before.
  - intros [|[|t]] Ht; [| |lia]; eexists; (split; [reflexivity|reflexivity]).
Qed.


(** ** The scenario, run *)

Lemma scenario_constructed :
  construct_with 1 [1%Q] [2] = Ok (scenario_net, scenario_s0).
Proof. reflexivity. Qed.

(** The trajectory of the source over the first thirteen steps: it climbs
    by 2/5, reaches 4 at step 10, crosses the threshold during that step
    and starts step 11 from 0. *)
Example scenario_v_trajectory :
  (λ k, v_at scenario_net scenario_s0 0 k) <$> seq 0 13
  = [0; 2 # 5; 4 # 5; 6 # 5; 8 # 5; 2; 12 # 5; 14 # 5; 16 # 5; 18 # 5; 4; 0; 2 # 5]%Q.
Proof. vm_compute. reflexivity. Qed.


(** C2, counterexample.  The phases of a step are not in the order
    IntrinsicUpdate, BufferWrite, DelayedAggregate, ThresholdReset: the
    state update does not precede the buffer write, and the first step of
    the scenario stores the initial [v = 0], not its update [2/5]. *)
Lemma phase_order_counterexample :
  tick_phases ≠ claimed_phases ∧
  ¬ runs_before G_stateupdater buffer_updater ∧
  ∃ s1, tick scenario_net scenario_s0 = Ok s1 ∧
    entry (v_buffer s1) (buffer_pointer s1) 0 = Some 0%Q ∧
    euler 0%Q = (2 # 5)%Q.
Proof.
  split; [discriminate|]. split.
  - intros (a & b & Ha & Hb & Hlt).
    vm_compute in Ha, Hb. injection Ha as <-. injection Hb as <-. lia.
  - eexists. split; [reflexivity|]. split; reflexivity.
Qed.

(** C6, counterexample.  In the scenario the source crosses the threshold
    during step 10, going from 4 to 22/5; the row written during step 10
    holds 4, which is not above the threshold. *)
Lemma reset_visibility_counterexample :
  crosses scenario_net scenario_s0 0 10 ∧
  ∃ s1, run scenario_net 11 scenario_s0 = Ok s1 ∧
    entry (v_buffer s1) (buffer_pointer s1) 0 = Some 4%Q ∧
    above 4%Q = false ∧
    euler 4%Q = (22 # 5)%Q ∧ above (22 # 5)%Q = true.
Proof.
  split; [vm_compute; reflexivity|].
  eexists. split; [vm_compute; reflexivity|]. repeat split.
Qed.

(** ** Instances of the theorems on concrete inputs *)


Lemma buffer_write_spec_witness :
  safe_network scenario_net ∧ wf_state scenario_net scenario_s0 ∧
  ∃ s', run_buffer_updater scenario_net scenario_s0 = Ok s' ∧
    buffer_pointer s' = 1.
Proof.
  assert (Hs : safe_network scenario_net)
    by (split; [cbn; lia|repeat constructor]).
  assert (Hw : wf_state scenario_net scenario_s0).
  { split; [reflexivity|]. split; [reflexivity|].
    split; [repeat constructor|cbn; lia]. }
  split; [exact Hs|]. split; [exact Hw|].
  destruct (buffer_write_spec scenario_net scenario_s0 Hs Hw)
    as (_ & _ & _ & s' & _ & Hrun & Hp & _).
  exists s'. split; [exact Hrun|]. rewrite Hp. reflexivity.
Defined.

Lemma delayed_lookup_spec_witness :
  safe_network scenario_net ∧ fresh scenario_net scenario_s0 ∧
  synapses scenario_net !! 0%nat = Some (Synapse 0 0 1%Q 2) ∧
  ∃ s_t s' x, run scenario_net 3 scenario_s0 = Ok s_t ∧
    tick scenario_net s_t = Ok s' ∧ v_delayed s' !! 0%nat = Some x ∧
    x = v_at scenario_net scenario_s0 0 1.
Proof.
  assert (Hs : safe_network scenario_net)
    by (split; [cbn; lia|repeat constructor]).
  assert (Hr : fresh scenario_net scenario_s0) by (repeat split; reflexivity).
  split; [exact Hs|]. split; [exact Hr|]. split; [reflexivity|].
  destruct (delayed_lookup_spec scenario_net scenario_s0 3 0
              (Synapse 0 0 1%Q 2) Hs Hr eq_refl)
    as (s_t & s_w & s' & x & Hrun & _ & Htick & _ & Hvd & _ & Hpast).
  exists s_t, s', x. split; [exact Hrun|]. split; [exact Htick|].
  split; [exact Hvd|]. apply Hpast; cbn; lia.
Defined.


Lemma reset_visibility_witness :
  (0 < N scenario_net)%nat ∧ 2 ≤ buffer_size scenario_net ∧
  crosses scenario_net scenario_s0 0 10 ∧
  ∃ s1 s2, run scenario_net 11 scenario_s0 = Ok s1 ∧
    run scenario_net 12 scenario_s0 = Ok s2 ∧
    entry (v_buffer s1) (buffer_pointer s1) 0 = Some 4%Q ∧
    entry (v_buffer s2) (buffer_pointer s2) 0 = Some 0%Q.
Proof.
  assert (Hs : safe_network scenario_net)
    by (split; [cbn; lia|repeat constructor]).
  assert (Hr : fresh scenario_net scenario_s0) by (repeat split; reflexivity).
  assert (Hc : crosses scenario_net scenario_s0 0 10) by (vm_compute; reflexivity).
  split; [cbn; lia|]. split; [cbn; lia|]. split; [exact Hc|].
  destruct (reset_visibility_at_step_start scenario_net scenario_s0 Hs Hr 10 0)
    as (s1 & s2 & H1 & H2 & Hrow & _ & Hnext & _); [cbn; lia|cbn; lia|exact Hc|].
  exists s1, s2. split; [exact H1|]. split; [exact H2|]. split; [|exact Hnext].
  rewrite Hrow. vm_compute. reflexivity.
Defined.

Lemma pre_start_read_witness :
  safe_network scenario_net ∧ delays_fit scenario_net ∧
  fresh scenario_net scenario_s0 ∧
  synapses scenario_net !! 0%nat = Some (Synapse 0 0 1%Q 2) ∧ Z.of_nat 1 < 2 ∧
  ∃ s', run scenario_net 2 scenario_s0 = Ok s' ∧ v_delayed s' !! 0%nat = Some 0%Q.
Proof.
  assert (Hs : safe_network scenario_net)
    by (split; [cbn; lia|repeat constructor]).
  assert (Hf : delays_fit scenario_net) by (repeat constructor; cbn; lia).
  assert (Hr : fresh scenario_net scenario_s0) by (repeat split; reflexivity).
  split; [exact Hs|]. split; [exact Hf|]. split; [exact Hr|].
  split; [reflexivity|]. split; [lia|].
  destruct pre_start_read as [Hgen _].
  apply (Hgen Q Q_scalar scenario_net scenario_s0 1%nat 0%nat
           (Synapse 0 0 1%Q 2) Hs Hf Hr eq_refl).
  cbn. lia.
Defined.

Lemma phase_order_witness :
  safe_network scenario_net ∧ wf_state scenario_net scenario_s0 ∧
  ∃ s', tick scenario_net scenario_s0 = Ok s' ∧ v s' = [(2 # 5)%Q].
Proof.
  assert (Hs : safe_network scenario_net)
    by (split; [cbn; lia|repeat constructor]).
  assert (Hw : wf_state scenario_net scenario_s0).
  { split; [reflexivity|]. split; [reflexivity|].
    split; [repeat constructor|cbn; lia]. }
  split; [exact Hs|]. split; [exact Hw|].
  destruct phase_order as (_ & _ & _ & _ & _ & _ & _ & Hsem).
  destruct (Hsem Q Q_scalar scenario_net scenario_s0 Hs Hw) as (s' & Htick & _ & Hv).
  exists s'. split; [exact Htick|]. rewrite Hv. reflexivity.
Defined.


Lemma no_out_of_bounds_witness :
  (1 ≤ 1)%nat ∧ 1 ≤ 3 ∧
  0 ≤ read_row 3 0 2 < 3 ∧
  ∃ ss : list (state Q), Simulation 1 (λ _, 0) 5 = Ok ss.
Proof.
  split; [lia|]. split; [lia|].
  destruct (no_out_of_bounds (V:=Q) 1 (λ _, 0) 5 3 0 2)
    as ((_ & Hread) & _ & _ & net & s0 & ss & _ & Hsim & _); [lia|lia|].
  split; [exact Hread|]. exists ss. exact Hsim.
Defined.

(** ** More on the pointer and the history *)

Section Buffer.
Context {V : Type} `{Scalar V}.
Implicit Types (net : network V) (s : state V) (c : synapse V).

(** X1. After [n] time steps the pointer is [n mod buffer_size], inside
    [0, buffer_size), and it is back at the same row [buffer_size] steps
    later. *)
Theorem pointer_cycles net s0 (n : nat) :
  safe_network net → fresh net s0 →
  ∃ s s',
    run net n s0 = Ok s ∧
    run net (n + Z.to_nat (buffer_size net)) s0 = Ok s' ∧
    buffer_pointer s = Z.of_nat n `mod` buffer_size net ∧
    0 ≤ buffer_pointer s < buffer_size net ∧
    buffer_pointer s' = buffer_pointer s.
Proof.
  intros Hsafe Hfresh. pose proof Hsafe as [HB _].
  pose proof (fresh_wf _ _ Hsafe Hfresh) as Hwf.
  exists (run_pure net n s0), (run_pure net (n + Z.to_nat (buffer_size net)) s0).
  rewrite !run_ok by done. split; [done|]. split; [done|].
  rewrite !(run_pure_pointer net s0 Hsafe Hfresh).
  split; [done|]. split; [by apply Z.mod_pos_bound|].
  replace (Z.of_nat (n + Z.to_nat (buffer_size net)))
    with (Z.of_nat n + 1 * buffer_size net) by lia.
  apply Z_mod_plus_full.
Qed.

Lemma get_v_delayed_entry (vb : list (list V)) (p bsize : Z) (i : nat) (d : Z) (n : nat) :
  0 < bsize → length vb = Z.to_nat bsize →
  Forall (λ row, length row = n) vb → (i < n)%nat →
  ∃ x, entry vb (read_row bsize p d) i = Some x ∧
       get_v_delayed vb p bsize i d = Ok x.
Proof.
  intros HB Hlen Hrows Hi.
  pose proof (get_v_delayed_ok (Network n bsize []) vb p (Synapse i 0 vzero d)
                HB Hlen Hrows Hi) as Hget.
  pose proof (entry_delayed (Network n bsize []) vb p (Synapse i 0 vzero d)
                HB Hlen Hrows Hi) as Hentry.
  cbn [buffer_size syn_i delay_step] in Hget, Hentry. eauto.
Qed.

Lemma read_row_self (bsize p d : Z) :
  0 ≤ p < bsize → (read_row bsize p d = p ↔ d `mod` bsize = 0).
Proof.
  intros Hp. unfold read_row. split.
  - intros Heq.
    replace d with (p - (p - d)) by lia.
    rewrite Zminus_mod, Heq, (Z.mod_small p) by lia.
    rewrite Z.sub_diag. apply Z.mod_0_l. lia.
  - intros Hd. rewrite Zminus_mod, Hd, Z.sub_0_r, Z.mod_mod by lia.
    by apply Z.mod_small.
Qed.

(** X2. Round trip of the two functions: after [update_v_buffer] has stored
    [v] under pointer [p], [get_v_delayed] under the same pointer and with a
    delay that is a multiple of [buffer_size] (0 in particular) returns the
    entry of [v] just stored.  Pointer, delay and their difference are
    32-bit integers, so that the subtraction is exact. *)
Theorem write_then_read_back (vs : list V) (vb : list (list V)) (p bsize : Z) (i : nat) :
  0 < bsize → length vb = Z.to_nat bsize →
  Forall (λ row, length row = length vs) vb →
  0 ≤ p < bsize → int32 p → (i < length vs)%nat →
  ∃ vb' x,
    update_v_buffer vs vb p = Ok vb' ∧ vs !! i = Some x ∧
    ∀ d, int32 d → int32 (p - d) → d `mod` bsize = 0 →
      get_v_delayed vb' p bsize i d = Ok x.
Proof.
  intros HB Hlen Hrows Hp _ Hi.
  destruct (lookup_lt_is_Some_2 vs i Hi) as [x Hx].
  exists (<[Z.to_nat p := vs]> vb), x.
  split; [apply (update_v_buffer_ok _ _ _ (length vs)); [lia|done..]|].
  split; [done|]. intros d _ _ Hd.
  destruct (get_v_delayed_entry (<[Z.to_nat p := vs]> vb) p bsize i d (length vs))
    as (y & Hy & ->); [done|by rewrite length_insert|by apply Forall_insert|done|].
  apply (read_row_self bsize p d Hp) in Hd. rewrite Hd in Hy. unfold entry in Hy.
  rewrite list_lookup_insert_eq in Hy by lia. simpl in Hy. congruence.
Qed.

(** X3. A write disturbs no other row: for a delay that is not a multiple
    of [buffer_size], [get_v_delayed] returns after [update_v_buffer] what it
    returned before, under the same pointer.  Pointer, delay and their
    difference are 32-bit integers, so that the subtraction is exact. *)
Theorem write_keeps_older_reads (vs : list V) (vb : list (list V)) (p bsize : Z)
    (i : nat) (d : Z) :
  0 < bsize → length vb = Z.to_nat bsize →
  Forall (λ row, length row = length vs) vb →
  0 ≤ p < bsize → int32 p → int32 d → int32 (p - d) →
  (i < length vs)%nat → d `mod` bsize ≠ 0 →
  ∃ vb' x,
    update_v_buffer vs vb p = Ok vb' ∧
    get_v_delayed vb p bsize i d = Ok x ∧
    get_v_delayed vb' p bsize i d = Ok x.
Proof.
  intros HB Hlen Hrows Hp _ _ _ Hi Hd.
  destruct (get_v_delayed_entry vb p bsize i d (length vs))
    as (x & Hx & Hget); [done..|].
  exists (<[Z.to_nat p := vs]> vb), x.
  split; [apply (update_v_buffer_ok _ _ _ (length vs)); [lia|done..]|].
  split; [done|].
  destruct (get_v_delayed_entry (<[Z.to_nat p := vs]> vb) p bsize i d (length vs))
    as (y & Hy & ->); [done|by rewrite length_insert|by apply Forall_insert|done|].
  unfold entry in Hx, Hy.
  pose proof (read_row_bounds bsize p d HB) as Hr.
  rewrite list_lookup_insert_ne in Hy; [congruence|].
  intros Heq. apply Z2Nat.inj in Heq; [|lia..].
  apply Hd, (read_row_self bsize p d Hp). done.
Qed.

(** X4. Only [delay_step mod buffer_size] matters: during step [t] a
    synapse fetches the value its source had at the start of step
    [t - (delay_step mod buffer_size)], or the initial zero if that is
    before the start, for every 32-bit [delay_step] whose difference with
    any pointer is a 32-bit integer too.  A delay of 0, or equal to
    [buffer_size], yields the value stored in this very step.  (The script
    itself only draws delays from 1 to [buffer_size - 1].) *)
Theorem effective_delay net s0 (t k : nat) c :
  safe_network net → fresh net s0 → synapses net !! k = Some c →
  buffer_size net ≤ 2 ^ 31 → int32 (delay_step c) →
  (∀ p, 0 ≤ p < buffer_size net → int32 (p - delay_step c)) →
  ∃ s',
    run net (S t) s0 = Ok s' ∧
    v_delayed s' !! k
    = Some (v_hist net s0 (syn_i c)
              (Z.of_nat t - delay_step c `mod` buffer_size net)) ∧
    (delay_step c `mod` buffer_size net = 0 →
     v_delayed s' !! k = Some (v_at net s0 (syn_i c) t)).
Proof.
  intros Hsafe Hfresh Hk _ _ _. pose proof Hsafe as [HB _].
  pose proof (fresh_wf _ _ Hsafe Hfresh) as Hwf.
  destruct (synapse_lookup_safe net k c Hsafe Hk) as [Hi _].
  pose proof (Z.mod_pos_bound (delay_step c) (buffer_size net) HB) as Hm.
  exists (run_pure net (S t) s0). rewrite run_ok by done. split; [done|].
  assert (Hlaw : v_delayed (run_pure net (S t) s0) !! k
    = Some (v_hist net s0 (syn_i c)
              (Z.of_nat t - delay_step c `mod` buffer_size net))).
  { rewrite v_delayed_run, list_lookup_fmap, Hk.
    cbn [fmap option_fmap option_map]. f_equal.
    set (c' := Synapse (syn_i c) (syn_j c) (w c)
                 (delay_step c `mod` buffer_size net)).
    assert (Hsame : ∀ vb p, delayed_of net vb p c = delayed_of net vb p c').
    { intros vb p. unfold delayed_of, read_row. cbn [delay_step syn_i c'].
      by rewrite Zminus_mod_idemp_r. }
    rewrite Hsame.
    destruct (decide (delay_step c `mod` buffer_size net = 0)) as [Hz|Hnz].
    - unfold delayed_of, entry, read_row. cbn [delay_step syn_i c'].
      rewrite Hz, Z.sub_0_r.
      rewrite (run_pure_pointer net s0 Hsafe Hfresh), Z.mod_mod by lia.
      replace (Z.of_nat (S t)) with (Z.of_nat t + 1) by lia.
      rewrite (history_recent net s0 Hsafe Hfresh) by lia.
      cbn [mbind option_bind]. rewrite (v_lookup net s0 Hsafe Hfresh) by done.
      unfold v_hist. rewrite bool_decide_eq_true_2 by lia.
      simpl. f_equal. lia.
    - apply (delayed_law net s0 Hsafe Hfresh t c'); [done|].
      cbn [delay_step c']. lia. }
  split; [exact Hlaw|]. intros Hz. rewrite Hlaw, Hz. unfold v_hist.
  rewrite bool_decide_eq_true_2 by lia. do 2 f_equal. lia.
Qed.

(** X5. A stored row lives for exactly [buffer_size] steps: the row written
    during step [t] still holds that step's [v] after each of the steps
    [t .. t + buffer_size - 1], and step [t + buffer_size] overwrites it with
    its own [v]. *)
Theorem history_lifetime net s0 (t u : nat) :
  safe_network net → fresh net s0 →
  (t ≤ u)%nat → Z.of_nat u ≤ Z.of_nat t + buffer_size net →
  ∃ s_t s_u s_after,
    run net t s0 = Ok s_t ∧ run net u s0 = Ok s_u ∧
    run net (S u) s0 = Ok s_after ∧
    v_buffer s_after !! Z.to_nat (write_row (buffer_size net) (buffer_pointer s_t))
    = Some (if decide (Z.of_nat u < Z.of_nat t + buffer_size net)
            then v s_t else v s_u).
Proof.
  intros Hsafe Hfresh Htu Hu. pose proof Hsafe as [HB _].
  pose proof (fresh_wf _ _ Hsafe Hfresh) as Hwf.
  exists (run_pure net t s0), (run_pure net u s0), (run_pure net (S u) s0).
  rewrite !run_ok by done. split; [done|]. split; [done|]. split; [done|].
  rewrite (run_pure_pointer net s0 Hsafe Hfresh). unfold write_row.
  rewrite Zplus_mod_idemp_l. case_decide as Hlt.
  - apply (history_recent net s0 Hsafe Hfresh); lia.
  - replace (Z.of_nat t + 1) with (Z.of_nat u + 1 + (-1) * buffer_size net) by lia.
    rewrite Z_mod_plus_full.
    apply (history_recent net s0 Hsafe Hfresh); lia.
Qed.

End Buffer.

(** ** More on the dynamics, the construction and whole runs *)

Section Program_facts.
Context {V : Type} `{Scalar V}.
Implicit Types (net : network V) (s : state V) (c : synapse V).

Lemma run_pure_v net (n : nat) s :
  v (run_pure net n s) = Nat.iter n next_v (v s).
Proof. induction n as [|n IH]; [done|]. cbn [run_pure tick_pure v Nat.iter]. by rewrite IH. Qed.

(** X6. The sources evolve on their own: whatever the synapses, delays,
    weights, history size and history content, [n] time steps turn [v] into
    the [n]-th iterate of "Euler step, then reset to [0.0] where the new
    value is above the threshold". *)
Theorem v_is_autonomous net1 net2 s1 s2 (n : nat) :
  safe_network net1 → safe_network net2 →
  wf_state net1 s1 → wf_state net2 s2 → v s1 = v s2 →
  ∃ r1 r2,
    run net1 n s1 = Ok r1 ∧ run net2 n s2 = Ok r2 ∧
    v r1 = v r2 ∧
    v r1 = Nat.iter n (fmap (λ x, if above (euler x) then vzero else euler x)) (v s1).
Proof.
  intros Hs1 Hs2 Hw1 Hw2 Hv.
  exists (run_pure net1 n s1), (run_pure net2 n s2).
  rewrite !run_ok by done. split; [done|]. split; [done|].
  rewrite !run_pure_v, Hv. split; [done|].
  induction n as [|n IH]; [done|]. by rewrite !Nat.iter_succ, IH.
Qed.

Lemma connect_gen_weights (ps : list (nat * nat)) (ws : list V) (ds : list Z) :
  Forall (λ x, x = vzero) ws →
  Forall (λ c, w c = vzero)
    (zip_with (λ '(i, j) '(x, d), Synapse i j x d) ps (zip ws ds)).
Proof.
  intros Hws. revert ps ds.
  induction Hws as [|x ws Hx Hws IH]; intros [|[i j] ps] [|d ds]; simpl;
    try constructor; auto.
Qed.

Lemma construct_initial (nb : nat) (delays : list Z) net s0 :
  construct nb delays = Ok (net, s0) →
  N net = nb ∧ v s0 = replicate nb vzero ∧ I_post s0 = replicate nb vzero ∧
  Forall (λ c, w c = vzero) (synapses net).
Proof.
  unfold construct, construct_with. case_bool_decide; [done|].
  destruct (py_max delays) as [m|]; [|done]. cbn [mbind result_bind].
  case_bool_decide; [done|]. intros [= <- <-]. cbn [N v I_post synapses].
  split; [done|]. split; [done|]. split; [done|].
  apply connect_gen_weights, Forall_replicate. done.
Qed.

Lemma summed_zero (j : nat) (cs : list (synapse V)) (vd : list V) :
  vadd vzero vzero = vzero →
  Forall (λ x, vmul x vzero = vzero) vd →
  Forall (λ c, w c = vzero) cs → summed j cs vd vzero = vzero.
Proof.
  intros Hadd Hvd Hcs. revert vd Hvd.
  induction Hcs as [|c cs Hc Hcs IH]; intros [|x vd] Hvd; simpl; try done.
  apply Forall_cons_1 in Hvd as [Hx Hvd].
  case_decide; [|by apply IH]. rewrite Hc, Hx, Hadd. by apply IH.
Qed.

Lemma good_next_v (good : V → Prop) (vs : list V) :
  zero_absorbs_on good → Forall good vs → Forall good (next_v vs).
Proof.
  intros (H0 & Hstep & _) Hvs. unfold next_v. apply Forall_fmap.
  eapply Forall_impl; [exact Hvs|]. intros x Hx. cbn [compose].
  unfold reset_one. destruct (above (euler x)); auto.
Qed.

Lemma good_trajectory (good : V → Prop) (nb k : nat) :
  zero_absorbs_on good → Forall good (Nat.iter k next_v (replicate nb vzero)).
Proof.
  intros Hz. induction k as [|k IH].
  - apply Forall_replicate. by destruct Hz.
  - rewrite Nat.iter_succ. by apply (good_next_v good).
Qed.

Lemma good_v_hist (good : V → Prop) net s0 (i : nat) (z : Z) :
  zero_absorbs_on good → safe_network net → fresh net s0 →
  v s0 = replicate (N net) vzero → good (v_hist net s0 i z).
Proof.
  intros Hz Hsafe Hfresh Hv0. pose proof Hz as (H0 & _).
  unfold v_hist. case_bool_decide; [|done].
  rewrite (v_at_pure net s0 Hsafe Hfresh), run_pure_v, Hv0.
  pose proof (good_trajectory good (N net) (Z.to_nat z) Hz) as Hall.
  destruct (_ !! i) as [x|] eqn:Hx; [|done].
  rewrite Forall_lookup in Hall. by apply (Hall i x).
Qed.

Lemma I_post_zero (good : V → Prop) net s0 (n : nat) :
  zero_absorbs_on good → safe_network net → delays_fit net → fresh net s0 →
  v s0 = replicate (N net) vzero →
  Forall (λ c, w c = vzero) (synapses net) →
  I_post s0 = replicate (N net) vzero →
  I_post (run_pure net n s0) = replicate (N net) vzero.
Proof.
  intros Hz Hsafe Hfit Hfresh Hv0 Hw HI. destruct n as [|n]; [done|].
  pose proof Hz as (_ & _ & Hmul & Hadd).
  change (I_post (run_pure net (S n) s0))
    with ((λ j, summed j (synapses net) (v_delayed (run_pure net (S n) s0)) vzero)
            <$> seq 0 (N net)).
  rewrite v_delayed_law by done.
  erewrite (const_fmap _ _ vzero); [by rewrite length_seq|].
  intros i j _. apply summed_zero; [done| |done].
  apply Forall_fmap, Forall_forall. intros c _. cbn [compose].
  apply Hmul. by apply (good_v_hist good).
Qed.

Lemma construct_zero_I (good : V → Prop) (nb : nat) (rnd : nat → Z) net s0 (n : nat) :
  zero_absorbs_on good → (1 ≤ nb)%nat →
  construct nb (draw_delays nb rnd) = Ok (net, s0) →
  I_post (run_pure net n s0) = replicate nb vzero.
Proof.
  intros Hz Hnb Hc.
  destruct (draws_construct_ok nb rnd Hnb)
    as (net' & s0' & m & Hc' & _ & _ & _ & _ & Hsafe & Hfit & Hfresh).
  rewrite Hc in Hc'. injection Hc' as <- <-.
  destruct (construct_initial _ _ _ _ Hc) as (HN & Hv & HI & Hw).
  rewrite <- HN. apply (I_post_zero good); try done; by rewrite HN.
Qed.

(** X7. The script never assigns the weights, so they all keep [0.0].
    Let [good] be a class of scalars that contains [0.0], is closed under
    the Euler step and whose members give [0.0] when multiplied by [0.0]
    (for binary64: the finite values that are not negative), and let
    [0.0 + 0.0 = 0.0]: then every target's [I] is [0.0] after any number of
    steps, whatever delays were drawn. *)
Theorem unassigned_weights_give_zero (good : V → Prop) (nb : nat) (rnd : nat → Z)
    (n : nat) :
  zero_absorbs_on good → (1 ≤ nb)%nat →
  ∃ net s0 s,
    construct nb (draw_delays nb rnd) = Ok (net, s0) ∧
    Forall (λ c, w c = vzero) (synapses net) ∧
    run net n s0 = Ok s ∧
    I_post s = replicate nb vzero.
Proof.
  intros Hz Hnb.
  destruct (draws_construct_ok nb rnd Hnb)
    as (net & s0 & m & Hc & _ & _ & _ & _ & Hsafe & _ & Hfresh).
  destruct (construct_initial _ _ _ _ Hc) as (_ & _ & _ & Hw).
  pose proof (fresh_wf _ _ Hsafe Hfresh) as Hwf.
  exists net, s0, (run_pure net n s0). split; [done|]. split; [done|].
  rewrite run_ok by done. split; [done|].
  by apply (construct_zero_I good nb rnd).
Qed.

Lemma observable_run (good : V → Prop) (nb : nat) (rnd : nat → Z) net s0 (k : nat) :
  zero_absorbs_on good → (1 ≤ nb)%nat →
  construct nb (draw_delays nb rnd) = Ok (net, s0) →
  observable (run_pure net k s0)
  = (Nat.iter k next_v (replicate nb vzero), replicate nb vzero).
Proof.
  intros Hz Hnb Hc. destruct (construct_initial _ _ _ _ Hc) as (_ & Hv & _ & _).
  unfold observable. rewrite run_pure_v, Hv. f_equal.
  by apply (construct_zero_I good nb rnd).
Qed.

(** X8. Under the same conditions on the arithmetic, what a run lets one
    observe, [v] of every source and [I] of every target at every step,
    does not depend on the random draws at all: any two entropy sources
    give the same observable trace. *)
Theorem observable_trace_ignores_draws (good : V → Prop) (nb : nat)
    (rnd1 rnd2 : nat → Z) (n : nat) :
  zero_absorbs_on good → (1 ≤ nb)%nat →
  ∃ ss1 ss2,
    Simulation nb rnd1 n = Ok ss1 ∧ Simulation nb rnd2 n = Ok ss2 ∧
    observable <$> ss1 = observable <$> ss2.
Proof.
  intros Hz Hnb.
  destruct (draws_construct_ok nb rnd1 Hnb)
    as (net1 & s1 & m1 & Hc1 & _ & _ & _ & _ & Hsafe1 & _ & Hfresh1).
  destruct (draws_construct_ok nb rnd2 Hnb)
    as (net2 & s2 & m2 & Hc2 & _ & _ & _ & _ & Hsafe2 & _ & Hfresh2).
  pose proof (fresh_wf _ _ Hsafe1 Hfresh1) as Hwf1.
  pose proof (fresh_wf _ _ Hsafe2 Hfresh2) as Hwf2.
  exists ((λ k, run_pure net1 k s1) <$> seq 0 (S n)),
         ((λ k, run_pure net2 k s2) <$> seq 0 (S n)).
  unfold Simulation. rewrite Hc1, Hc2. cbn [mbind result_bind].
  rewrite !trace_ok by done. split; [done|]. split; [done|].
  rewrite <- !list_fmap_compose. apply list_fmap_ext. intros i k _.
  cbn [compose].
  by rewrite (observable_run good nb rnd1 net1 s1 k Hz Hnb Hc1),
             (observable_run good nb rnd2 net2 s2 k Hz Hnb Hc2).
Qed.

(** X9. A simulation raises nothing exactly when there is at least one
    neuron; with none it ends in [ValueError], whatever the draws and the
    number of steps. *)
Theorem Simulation_ok_iff (nb : nat) (rnd : nat → Z) (n : nat) :
  (is_Ok (Simulation nb rnd n) ↔ (1 ≤ nb)%nat) ∧
  Simulation 0 rnd n = Raise ValueError.
Proof.
  assert (Hzero : Simulation 0 rnd n = Raise ValueError) by reflexivity.
  split; [|exact Hzero]. split.
  - intros [ss Hss]. destruct nb; [|lia]. by rewrite Hzero in Hss.
  - intros Hnb.
    destruct (draws_construct_ok nb rnd Hnb)
      as (net & s0 & m & Hc & _ & _ & _ & _ & Hsafe & _ & Hfresh).
    pose proof (fresh_wf _ _ Hsafe Hfresh) as Hwf.
    unfold Simulation. rewrite Hc. cbn [mbind result_bind].
    rewrite trace_ok by done. by eexists.
Qed.

(** X10. Sizes fixed by the construction, for every draw: one synapse per
    ordered pair of neurons, a history of at least 2 and at most
    [delay_max = 10] rows, each row with one entry per source. *)
Theorem construction_sizes (nb : nat) (rnd : nat → Z) :
  (1 ≤ nb)%nat →
  ∃ net s0,
    construct nb (draw_delays nb rnd) = Ok (net, s0) ∧
    N net = nb ∧
    length (synapses net) = (nb ^ 2)%nat ∧
    2 ≤ buffer_size net ≤ delay_max ∧
    length (v_buffer s0) = Z.to_nat (buffer_size net) ∧
    Forall (λ row, length row = nb) (v_buffer s0).
Proof.
  intros Hnb.
  destruct (draws_construct_ok nb rnd Hnb)
    as (net & s0 & m & Hc & HN & Hds & Hmax & HB & Hsafe & _ & Hfresh).
  destruct (fresh_wf _ _ Hsafe Hfresh) as (_ & Hlen & Hrows & _).
  exists net, s0. split; [done|]. split; [done|]. split.
  { by rewrite <- (length_fmap delay_step), Hds, length_draw_delays. }
  split; [|split; [done|by rewrite <- HN]].
  destruct (py_max_bounds _ _ Hmax) as [Hin _].
  pose proof (draw_delays_range nb rnd) as Hr.
  rewrite Forall_forall in Hr. specialize (Hr _ Hin). simpl in Hr.
  unfold delay_max in *. lia.
Qed.

Lemma pairs_lookup (nb a m k : nat) :
  (k < m * nb)%nat →
  (i ← seq a m; (λ j, (i, j)) <$> seq 0 nb) !! k
  = Some ((a + k / nb)%nat, (k `mod` nb)%nat).
Proof.
  revert a k. induction m as [|m IH]; intros a k Hk; [lia|].
  assert (nb ≠ 0)%nat as Hnz by (intros ->; lia).
  cbn [seq]. rewrite bind_cons.
  destruct (decide (k < nb)%nat) as [Hlt|Hge].
  - rewrite lookup_app_l by (by rewrite length_fmap, length_seq).
    rewrite list_lookup_fmap, lookup_seq_lt by done. simpl.
    rewrite Nat.div_small, Nat.mod_small by done. do 2 f_equal. lia.
  - rewrite lookup_app_r by (rewrite length_fmap, length_seq; lia).
    rewrite length_fmap, length_seq. rewrite IH by lia.
    destruct (Nat.le_exists_sub nb k) as (q & -> & _); [lia|].
    rewrite Nat.add_sub.
    replace (q + nb)%nat with (q + 1 * nb)%nat by lia.
    rewrite Nat.div_add, Nat.Div0.mod_add by done. do 2 f_equal. lia.
Qed.

(** X11. [S.connect()] followed by [S.delay_step = delays] gives the
    connection from source [i] to target [j] the index [i * nb + j] and the
    delay [delays[i * nb + j]]; conversely the synapse at index [k] goes
    from [k / nb] to [k mod nb]. *)
Theorem connect_lookup (nb : nat) (ws : list V) (ds : list Z) :
  length ws = (nb ^ 2)%nat → length ds = (nb ^ 2)%nat →
  (∀ i j : nat, (i < nb)%nat → (j < nb)%nat →
     ∃ x d, ws !! (i * nb + j)%nat = Some x ∧ ds !! (i * nb + j)%nat = Some d ∧
       connect nb ws ds !! (i * nb + j)%nat = Some (Synapse i j x d)) ∧
  (∀ (k : nat) c, connect nb ws ds !! k = Some c →
     syn_i c = (k / nb)%nat ∧ syn_j c = (k `mod` nb)%nat ∧
     ds !! k = Some (delay_step c)).
Proof.
  rewrite Nat.pow_2_r. intros Hws Hds.
  assert (Hlook : ∀ k : nat, (k < nb * nb)%nat →
    ∃ x d, ws !! k = Some x ∧ ds !! k = Some d ∧
      connect nb ws ds !! k
      = Some (Synapse (k / nb) (k `mod` nb) x d)).
  { intros k Hk.
    destruct (lookup_lt_is_Some_2 ws k) as [x Hx]; [lia|].
    destruct (lookup_lt_is_Some_2 ds k) as [d Hd]; [lia|].
    exists x, d. split; [done|]. split; [done|].
    unfold connect, all_pairs. rewrite lookup_zip_with.
    rewrite pairs_lookup by done. cbn [mbind option_bind].
    rewrite lookup_zip_with, Hx, Hd. done. }
  split.
  - intros i j Hi Hj. destruct (Hlook (i * nb + j)%nat) as (x & d & Hx & Hd & Hc);
      [nia|].
    exists x, d. split; [done|]. split; [done|]. rewrite Hc.
    assert (nb ≠ 0)%nat as Hnz by lia.
    assert (Hdiv : ((i * nb + j) / nb)%nat = i)
      by (rewrite Nat.div_add_l, Nat.div_small by done; lia).
    assert (Hmod : ((i * nb + j) `mod` nb)%nat = j)
      by (rewrite Nat.add_comm, Nat.Div0.mod_add; by apply Nat.mod_small).
    by rewrite Hdiv, Hmod.
  - intros k c Hc.
    assert (k < nb * nb)%nat as Hk.
    { apply lookup_lt_Some in Hc. unfold connect in Hc.
      rewrite length_zip_with, length_all_pairs in Hc. lia. }
    destruct (Hlook k Hk) as (x & d & Hx & Hd & Hc'). rewrite Hc' in Hc.
    injection Hc as <-. by cbn [syn_i syn_j delay_step].
Qed.

(** X12. On a history of [buffer_size > 0] rows of [n] entries,
    [get_v_delayed] never fails because of the pointer or the delay,
    negative or large as they may be: it returns a value when the source
    index is below [n] and raises [IndexError] otherwise. *)
Theorem get_v_delayed_bounds (vb : list (list V)) (p bsize : Z) (i : nat) (d : Z) (n : nat) :
  0 < bsize → length vb = Z.to_nat bsize →
  Forall (λ row, length row = n) vb →
  ((i < n)%nat → is_Ok (get_v_delayed vb p bsize i d)) ∧
  ((n ≤ i)%nat → get_v_delayed vb p bsize i d = Raise IndexError).
Proof.
  intros HB Hlen Hrows. split.
  - intros Hi.
    destruct (get_v_delayed_entry vb p bsize i d n) as (x & _ & Hx); [done..|].
    by exists x.
  - intros Hi. unfold get_v_delayed.
    pose proof (Z.mod_pos_bound (p - d) bsize HB) as Hr.
    rewrite np_index_in_range by lia. cbn [mbind result_bind].
    destruct (lookup_lt_is_Some_2 vb (Z.to_nat ((p - d) `mod` bsize)))
      as [row Hrow]; [lia|].
    rewrite Hrow. rewrite Forall_lookup in Hrows. rewrite (Hrows _ _ Hrow).
    unfold np_index.
    rewrite bool_decide_eq_false_2, bool_decide_eq_false_2 by lia. done.
Qed.

(** X13. The script's entry point, 600 neurons for 10000 steps, raises
    nothing whatever the draws: it yields the 10001 states at the step
    boundaries, each with arrays of the constructed shapes, over a history
    of at most 10 rows. *)
Theorem main_runs (rnd : nat → Z) :
  ∃ net s0 ss,
    construct 600 (draw_delays 600 rnd) = Ok (net, s0) ∧
    main rnd = Ok ss ∧
    length ss = S (100 * 100) ∧
    N net = 600%nat ∧ buffer_size net ≤ 10 ∧
    Forall (wf_state net) ss.
Proof.
  destruct (draws_construct_ok 600 rnd)
    as (net & s0 & m & Hc & HN & _ & Hmax & HB & Hsafe & _ & Hfresh); [lia|].
  pose proof (fresh_wf _ _ Hsafe Hfresh) as Hwf.
  exists net, s0, ((λ k, run_pure net k s0) <$> seq 0 (S (100 * 100))).
  split; [exact Hc|]. unfold main, Simulation. rewrite Hc.
  cbn [mbind result_bind]. rewrite trace_ok by assumption.
  split; [reflexivity|]. split; [by rewrite length_fmap, length_seq|].
  split; [exact HN|]. split.
  { destruct (py_max_bounds _ _ Hmax) as [Hin _].
    pose proof (draw_delays_range 600 rnd) as Hr.
    rewrite Forall_forall in Hr. specialize (Hr _ Hin). cbv beta in Hr.
    unfold delay_max in Hr. lia. }
  apply Forall_fmap, Forall_forall. intros k _.
  by apply run_pure_wf.
Qed.

End Program_facts.

(** ** Instances of the further theorems on concrete inputs *)

Lemma pointer_cycles_witness :
  safe_network scenario_net ∧ fresh scenario_net scenario_s0 ∧
  ∃ s, run scenario_net 4 scenario_s0 = Ok s ∧ buffer_pointer s = 1.
Proof.
  assert (Hs : safe_network scenario_net)
    by (split; [cbn; lia|repeat constructor]).
  assert (Hr : fresh scenario_net scenario_s0) by (repeat split; reflexivity).
  split; [exact Hs|]. split; [exact Hr|].
  destruct (pointer_cycles scenario_net scenario_s0 4 Hs Hr)
    as (s & _ & Hrun & _ & Hp & _ & _).
  exists s. split; [exact Hrun|]. rewrite Hp. reflexivity.
Defined.

Lemma write_then_read_back_witness :
  0 < 3 ∧ length (replicate 3 [0%Q]) = Z.to_nat 3 ∧
  Forall (λ row, length row = length [7%Q]) (replicate 3 [0%Q]) ∧
  0 ≤ 1 < 3 ∧ int32 1 ∧ int32 3 ∧ int32 (1 - 3) ∧ (0 < length [7%Q])%nat ∧
  ∃ vb', update_v_buffer [7%Q] (replicate 3 [0%Q]) 1 = Ok vb' ∧
    get_v_delayed vb' 1 3 0 3 = Ok 7%Q.
Proof.
  assert (Hrows : Forall (λ row, length row = length [7%Q]) (replicate 3 [0%Q]))
    by repeat constructor.
  split; [lia|]. split; [reflexivity|]. split; [exact Hrows|].
  split; [lia|]. split; [unfold int32; lia|]. split; [unfold int32; lia|].
  split; [unfold int32; lia|]. split; [cbn; lia|].
  destruct (write_then_read_back [7%Q] (replicate 3 [0%Q]) 1 3 0)
    as (vb' & x & Hw & Hx & Hread);
    [lia|reflexivity|exact Hrows|lia|unfold int32; lia|cbn; lia|].
  exists vb'. split; [exact Hw|]. injection Hx as <-.
  apply Hread; [unfold int32; lia|unfold int32; lia|reflexivity].
Defined.

Lemma write_keeps_older_reads_witness :
  0 < 3 ∧ length (replicate 3 [0%Q]) = Z.to_nat 3 ∧
  Forall (λ row, length row = length [7%Q]) (replicate 3 [0%Q]) ∧
  0 ≤ 1 < 3 ∧ int32 1 ∧ int32 2 ∧ int32 (1 - 2) ∧
  (0 < length [7%Q])%nat ∧ 2 `mod` 3 ≠ 0 ∧
  ∃ vb', update_v_buffer [7%Q] (replicate 3 [0%Q]) 1 = Ok vb' ∧
    get_v_delayed vb' 1 3 0 2 = Ok 0%Q.
Proof.
  assert (Hrows : Forall (λ row, length row = length [7%Q]) (replicate 3 [0%Q]))
    by repeat constructor.
  split; [lia|]. split; [reflexivity|]. split; [exact Hrows|].
  split; [lia|]. split; [unfold int32; lia|]. split; [unfold int32; lia|].
  split; [unfold int32; lia|]. split; [cbn; lia|]. split; [discriminate|].
  destruct (write_keeps_older_reads [7%Q] (replicate 3 [0%Q]) 1 3 0 2)
    as (vb' & x & Hw & Hold & Hnew);
    [lia|reflexivity|exact Hrows|lia|unfold int32; lia|unfold int32; lia
    |unfold int32; lia|cbn; lia|discriminate|].
  exists vb'. split; [exact Hw|]. rewrite Hnew, <- Hold. reflexivity.
Defined.

Lemma effective_delay_witness :
  safe_network (Network 1 3 [Synapse 0 0 1%Q 5]) ∧
  fresh (Network 1 3 [Synapse 0 0 1%Q 5]) scenario_s0 ∧
  int32 5 ∧ (∀ p, 0 ≤ p < 3 → int32 (p - 5)) ∧
  ∃ s', run (Network 1 3 [Synapse 0 0 1%Q 5]) 5 scenario_s0 = Ok s' ∧
    v_delayed s' !! 0%nat = Some (4 # 5)%Q.
Proof.
  assert (Hs : safe_network (Network 1 3 [Synapse 0 0 1%Q 5]))
    by (split; [cbn; lia|repeat constructor]).
  assert (Hr : fresh (Network 1 3 [Synapse 0 0 1%Q 5]) scenario_s0)
    by (repeat split; reflexivity).
  split; [exact Hs|]. split; [exact Hr|]. split; [unfold int32; lia|].
  split; [intros p Hp; unfold int32; lia|].
  destruct (effective_delay (Network 1 3 [Synapse 0 0 1%Q 5]) scenario_s0 4 0
              (Synapse 0 0 1%Q 5) Hs Hr eq_refl) as (s' & Hrun & Hvd & _);
    [cbn; lia|unfold int32; cbn; lia|intros p Hp; unfold int32; cbn in *; lia|].
  exists s'. split; [exact Hrun|]. rewrite Hvd. vm_compute. reflexivity.
Defined.

Lemma history_lifetime_witness :
  safe_network scenario_net ∧ fresh scenario_net scenario_s0 ∧
  (2 ≤ 5)%nat ∧ Z.of_nat 5 ≤ Z.of_nat 2 + buffer_size scenario_net ∧
  ∃ s_after, run scenario_net 6 scenario_s0 = Ok s_after ∧
    v_buffer s_after !! 0%nat = Some [2%Q].
Proof.
  assert (Hs : safe_network scenario_net)
    by (split; [cbn; lia|repeat constructor]).
  assert (Hr : fresh scenario_net scenario_s0) by (repeat split; reflexivity).
  split; [exact Hs|]. split; [exact Hr|]. split; [lia|]. split; [cbn; lia|].
  destruct (history_lifetime scenario_net scenario_s0 2 5 Hs Hr)
    as (s_t & s_u & s_after & Ht & Hu & Hafter & Hrow); [lia|cbn; lia|].
  exists s_after. split; [exact Hafter|].
  vm_compute in Ht, Hu. injection Ht as <-. injection Hu as <-.
  exact Hrow.
Defined.

Lemma v_is_autonomous_witness :
  safe_network scenario_net ∧ safe_network (Network 1 3 [Synapse 0 0 1%Q 5]) ∧
  wf_state scenario_net scenario_s0 ∧
  wf_state (Network 1 3 [Synapse 0 0 1%Q 5]) scenario_s0 ∧
  ∃ r1 r2, run scenario_net 12 scenario_s0 = Ok r1 ∧
    run (Network 1 3 [Synapse 0 0 1%Q 5]) 12 scenario_s0 = Ok r2 ∧ v r1 = v r2.
Proof.
  assert (Hs1 : safe_network scenario_net)
    by (split; [cbn; lia|repeat constructor]).
  assert (Hs2 : safe_network (Network 1 3 [Synapse 0 0 1%Q 5]))
    by (split; [cbn; lia|repeat constructor]).
  assert (Hw1 : wf_state scenario_net scenario_s0).
  { split; [reflexivity|]. split; [reflexivity|].
    split; [repeat constructor|cbn; lia]. }
  assert (Hw2 : wf_state (Network 1 3 [Synapse 0 0 1%Q 5]) scenario_s0).
  { split; [reflexivity|]. split; [reflexivity|].
    split; [repeat constructor|cbn; lia]. }
  split; [exact Hs1|]. split; [exact Hs2|]. split; [exact Hw1|]. split; [exact Hw2|].
  destruct (v_is_autonomous scenario_net (Network 1 3 [Synapse 0 0 1%Q 5])
              scenario_s0 scenario_s0 12 Hs1 Hs2 Hw1 Hw2 eq_refl)
    as (r1 & r2 & H1 & H2 & Hv & _).
  exists r1, r2. split; [exact H1|]. split; [exact H2|exact Hv].
Defined.

Lemma unassigned_weights_give_zero_witness :
  zero_absorbs_on (V:=Q) (λ _, True) ∧ (1 ≤ 2)%nat ∧
  ∃ (net : network Q) (s0 s : state Q),
    construct 2 (draw_delays 2 (λ k, Z.of_nat k)) = Ok (net, s0) ∧
    run net 5 s0 = Ok s ∧ I_post s = [0%Q; 0%Q].
Proof.
  assert (Hz : zero_absorbs_on (V:=Q) (λ _, True)).
  { split; [exact I|]. split; [intros x _; exact I|]. split; [|reflexivity].
    intros [a b] _. cbn. unfold Qmult. cbn. rewrite Z.mul_0_r. reflexivity. }
  split; [exact Hz|]. split; [lia|].
  destruct (unassigned_weights_give_zero (V:=Q) (λ _, True) 2 (λ k, Z.of_nat k) 5 Hz)
    as (net & s0 & s & Hc & _ & Hrun & HI); [lia|].
  exists net, s0, s. split; [exact Hc|]. split; [exact Hrun|exact HI].
Defined.

Lemma observable_trace_ignores_draws_witness :
  zero_absorbs_on (V:=Q) (λ _, True) ∧ (1 ≤ 1)%nat ∧
  draw_delays 1 (λ _, 0) ≠ draw_delays 1 (λ _, 4) ∧
  ∃ ss1 ss2 : list (state Q),
    Simulation 1 (λ _, 0) 5 = Ok ss1 ∧ Simulation 1 (λ _, 4) 5 = Ok ss2 ∧
    observable <$> ss1 = observable <$> ss2.
Proof.
  assert (Hz : zero_absorbs_on (V:=Q) (λ _, True)).
  { split; [exact I|]. split; [intros x _; exact I|]. split; [|reflexivity].
    intros [a b] _. cbn. unfold Qmult. cbn. rewrite Z.mul_0_r. reflexivity. }
  split; [exact Hz|]. split; [lia|]. split; [discriminate|].
  destruct (observable_trace_ignores_draws (V:=Q) (λ _, True) 1 (λ _, 0) (λ _, 4) 5 Hz)
    as (ss1 & ss2 & H1 & H2 & Hobs); [lia|].
  exists ss1, ss2. split; [exact H1|]. split; [exact H2|exact Hobs].
Defined.

Lemma construction_sizes_witness :
  (1 ≤ 2)%nat ∧
  ∃ (net : network Q) (s0 : state Q),
    construct 2 (draw_delays 2 (λ k, Z.of_nat k)) = Ok (net, s0) ∧
    length (synapses net) = 4%nat ∧ 2 ≤ buffer_size net ≤ 10.
Proof.
  split; [lia|].
  destruct (construction_sizes (V:=Q) 2 (λ k, Z.of_nat k))
    as (net & s0 & Hc & _ & Hlen & HB & _); [lia|].
  exists net, s0. split; [exact Hc|]. split; [exact Hlen|exact HB].
Defined.

Lemma connect_lookup_witness :
  length [1%Q; 2%Q; 3%Q; 4%Q] = (2 ^ 2)%nat ∧ length [5; 6; 7; 8] = (2 ^ 2)%nat ∧
  connect 2 [1%Q; 2%Q; 3%Q; 4%Q] [5; 6; 7; 8] !! 2%nat
  = Some (Synapse 1 0 3%Q 7).
Proof.
  split; [reflexivity|]. split; [reflexivity|].
  destruct (connect_lookup (V:=Q) 2 [1%Q; 2%Q; 3%Q; 4%Q] [5; 6; 7; 8]
              eq_refl eq_refl) as [Hpair _].
  destruct (Hpair 1%nat 0%nat) as (x & d & Hx & Hd & Hc); [lia|lia|].
  injection Hx as <-. injection Hd as <-. exact Hc.
Defined.

Lemma get_v_delayed_bounds_witness :
  0 < 3 ∧ length (replicate 3 [0%Q]) = Z.to_nat 3 ∧
  Forall (λ row, length row = 1%nat) (replicate 3 [0%Q]) ∧
  is_Ok (get_v_delayed (replicate 3 [0%Q]) (-7) 3 0 100) ∧
  get_v_delayed (replicate 3 [0%Q]) (-7) 3 1 100 = Raise IndexError.
Proof.
  assert (Hrows : Forall (λ row, length row = 1%nat) (replicate 3 [0%Q]))
    by repeat constructor.
  split; [lia|]. split; [reflexivity|]. split; [exact Hrows|].
  split.
  - apply (get_v_delayed_bounds (replicate 3 [0%Q]) (-7) 3 0 100 1);
      [lia|reflexivity|exact Hrows|lia].
  - apply (get_v_delayed_bounds (replicate 3 [0%Q]) (-7) 3 1 100 1);
      [lia|reflexivity|exact Hrows|lia].
Defined.
